(** * Portfoliomanager1: portfolio weights, investments and key statistics

    A shallow embedding of [Portfoliomanager1.py].  The Python code is
    duck-typed over its numbers, so the embedding is written once over a
    class of number types and instantiated twice: at IEEE-754 binary64, which
    is what numpy and pandas compute with, and at the rationals extended
    with the infinities and not-a-number, which is the same arithmetic
    without rounding.  What the program downloads from the price provider is
    an input of the functions that use it; the optimizer of the
    most-diversified strategy is not modelled. *)

From Stdlib Require Import ZArith QArith Qcanon Field Lia.
From Stdlib Require Import Floats.SpecFloat.
From stdpp Require Import base numbers strings option list sorting.

(** ** Exceptions *)

Inductive exn : Set := KeyError | ValueError | IndexError | ZeroDivisionError.

Inductive result (A : Type) : Type :=
| Ok (a : A)
| Raise (e : exn).
Arguments Ok {A} a.
Arguments Raise {A} e.

#[global] Instance result_ret : MRet result := @Ok.
#[global] Instance result_bind : MBind result := λ A B f m,
  match m with Ok a => f a | Raise e => Raise e end.

#[global] Instance exn_eq_dec : EqDecision exn.
Proof. solve_decision. Defined.

#[global] Instance result_eq_dec {A} `{EqDecision A} : EqDecision (result A).
Proof. solve_decision. Defined.

(** ** Numbers *)

Declare Scope num_scope.
Delimit Scope num_scope with F.

(** What the program asks of its numbers.  [nan] is the value pandas stores
    in a missing cell and [isnan] its missing-value test; [iszero] is the test
    Python's own [/] makes before it divides. *)
Class Num (F : Type) : Type := {
  of_Z : Z → F;
  nadd : F → F → F;
  nsub : F → F → F;
  nmul : F → F → F;
  ndiv : F → F → F;
  nan : F;
  isnan : F → bool;
  iszero : F → bool;
  isnan_nan : isnan nan = true
}.

Notation "x + y" := (nadd x y) : num_scope.
Notation "x - y" := (nsub x y) : num_scope.
Notation "x * y" := (nmul x y) : num_scope.
Notation "x / y" := (ndiv x y) : num_scope.

Class Sqrt (F : Type) : Type := nsqrt : F → F.

(** IEEE-754 double precision, the [float64] of numpy and pandas: 53 bits of
    precision, exponents below 1024, round to nearest even. *)
Module Binary64.

Definition prec : Z := 53.
Definition emax : Z := 1024.
Definition t : Type := spec_float.

Definition of_Z (z : Z) : t := binary_normalize prec emax z 0 false.
Definition add : t → t → t := SFadd prec emax.
Definition sub : t → t → t := SFsub prec emax.
Definition mul : t → t → t := SFmul prec emax.
Definition div : t → t → t := SFdiv prec emax.
Definition sqrt : t → t := SFsqrt prec emax.

Definition is_nan (x : t) : bool :=
  match x with S754_nan => true | _ => false end.
Definition is_zero (x : t) : bool :=
  match x with S754_zero _ => true | _ => false end.
Definition is_inf (x : t) : bool :=
  match x with S754_infinity _ => true | _ => false end.

(** [m * 2^e], rounded. *)
Definition dyadic (m e : Z) : t := binary_normalize prec emax m e false.

End Binary64.

#[global] Instance binary64_num : Num Binary64.t := {|
  of_Z := Binary64.of_Z;
  nadd := Binary64.add;
  nsub := Binary64.sub;
  nmul := Binary64.mul;
  ndiv := Binary64.div;
  nan := S754_nan;
  isnan := Binary64.is_nan;
  iszero := Binary64.is_zero;
  isnan_nan := eq_refl
|}.

#[global] Instance binary64_sqrt : Sqrt Binary64.t := Binary64.sqrt.

(** The rational [n/d]. *)
Definition qc (n : Z) (d : positive) : Qc := Q2Qc (n # d).

(** The same arithmetic without rounding: a rational, an infinity or
    not-a-number, with the IEEE rules for the special values.  The only
    things lost are rounding, overflow and the sign of zero. *)
Module Exact.

Inductive t : Type :=
| Fin (q : Qc)
| Inf (neg : bool)
| NaN.

#[global] Instance eq_dec : EqDecision t.
Proof. solve_decision. Defined.

Definition negative (q : Qc) : bool := bool_decide (q < 0)%Qc.

Definition add (x y : t) : t :=
  match x, y with
  | NaN, _ | _, NaN => NaN
  | Inf a, Inf b => if eqb a b then Inf a else NaN
  | Inf a, Fin _ | Fin _, Inf a => Inf a
  | Fin p, Fin q => Fin (p + q)
  end.

Definition opp (x : t) : t :=
  match x with
  | NaN => NaN
  | Inf a => Inf (negb a)
  | Fin q => Fin (- q)
  end.

Definition sub (x y : t) : t :=
  match x, y with
  | Fin p, Fin q => Fin (p - q)
  | _, _ => add x (opp y)
  end.

Definition mul (x y : t) : t :=
  match x, y with
  | NaN, _ | _, NaN => NaN
  | Inf a, Inf b => Inf (xorb a b)
  | Inf a, Fin q | Fin q, Inf a =>
      if bool_decide (q = 0)%Qc then NaN else Inf (xorb a (negative q))
  | Fin p, Fin q => Fin (p * q)
  end.

Definition div (x y : t) : t :=
  match x, y with
  | NaN, _ | _, NaN => NaN
  | Inf _, Inf _ => NaN
  | Inf a, Fin q => Inf (xorb a (negative q))
  | Fin _, Inf _ => Fin 0
  | Fin p, Fin q =>
      if bool_decide (q = 0)%Qc
      then (if bool_decide (p = 0)%Qc then NaN else Inf (negative p))
      else Fin (p / q)
  end.

Definition is_nan (x : t) : bool :=
  match x with NaN => true | _ => false end.
Definition is_zero (x : t) : bool :=
  match x with Fin q => bool_decide (q = 0)%Qc | _ => false end.

Definition of_Z (z : Z) : t := Fin (Q2Qc (inject_Z z)).

Definition frac (n : Z) (d : positive) : t := Fin (qc n d).

End Exact.

#[global] Instance exact_num : Num Exact.t := {|
  of_Z := Exact.of_Z;
  nadd := Exact.add;
  nsub := Exact.sub;
  nmul := Exact.mul;
  ndiv := Exact.div;
  nan := Exact.NaN;
  isnan := Exact.is_nan;
  iszero := Exact.is_zero;
  isnan_nan := eq_refl
|}.

(** ** Python built-ins *)

Section Python.
Context {F : Type} `{Num F}.

(** [sum(xs)]: starts from the integer 0 and adds from the left.  The
    amounts are taken as floats; where they are Python integers the sum is
    not rounded, which is also the case here as long as the partial sums
    stay below [2^53]. *)
Definition py_sum (xs : list F) : F := fold_left nadd xs (of_Z 0).

(** [a / b] on Python integers. *)
Definition py_int_truediv (a b : Z) : result F :=
  if decide (b = 0%Z) then Raise ZeroDivisionError
  else Ok (of_Z a / of_Z b)%F.

(** [a / b] on Python floats. *)
Definition py_truediv (a b : F) : result F :=
  if iszero b then Raise ZeroDivisionError else Ok (a / b)%F.

End Python.

(** A [dict]: keys in insertion order; storing under a key that is present
    replaces its value and keeps its place. *)
Definition dict (K V : Type) : Type := list (K * V).

Section Dict.
Context {K V : Type} `{EqDecision K}.

Fixpoint dict_set (d : dict K V) (k : K) (v : V) : dict K V :=
  match d with
  | [] => [(k, v)]
  | (k', v') :: d' =>
      if decide (k = k') then (k', v) :: d' else (k', v') :: dict_set d' k v
  end.

Fixpoint dict_get (d : dict K V) (k : K) : option V :=
  match d with
  | [] => None
  | (k', v') :: d' => if decide (k = k') then Some v' else dict_get d' k
  end.

Definition dict_keys (d : dict K V) : list K := d.*1.
Definition dict_values (d : dict K V) : list V := d.*2.

(** [{k: v for k, v in kvs}] *)
Definition dict_of (kvs : list (K * V)) : dict K V :=
  fold_left (λ d kv, dict_set d kv.1 kv.2) kvs [].

End Dict.

(** ** numpy *)

Section Numpy.
Context {F : Type} `{Num F}.

(** [np.sum]: adds from the left, starting from the first element.  (numpy
    regroups the additions of a long array in pairs; the regrouping does not
    show in exact arithmetic, nor where every partial sum is exact.) *)
Definition np_sum (xs : list F) : F :=
  match xs with
  | [] => of_Z 0
  | x :: xs' => fold_left nadd xs' x
  end.

(** [np.mean]: the sum over the count; not-a-number for an empty array. *)
Definition np_mean (xs : list F) : F :=
  (np_sum xs / of_Z (Z.of_nat (length xs)))%F.

(** [np.var] with its default [ddof=0]. *)
Definition np_var (xs : list F) : F :=
  let arrmean := np_mean xs in
  let x := (λ a, (a - arrmean)%F) <$> xs in
  (np_sum ((λ a, (a * a)%F) <$> x) / of_Z (Z.of_nat (length xs)))%F.

(** [np.std] with its default [ddof=0]. *)
Definition np_std `{Sqrt F} (xs : list F) : F := nsqrt (np_var xs).

(** The inner product of two vectors of one length: the products are
    rounded one by one and added from the left.  (numpy hands the products
    to BLAS, which may fuse and regroup them; this shows only in the
    rounding.) *)
Definition inner (xs ys : list F) : F := np_sum (zip_with nmul xs ys).

(** [np.dot(a, w)] for a matrix [a] of [n] columns, given by its rows, and a
    column [w]: [ValueError] unless [w] has [n] entries. *)
Definition np_dot (a : list (list F)) (n : nat) (w : list F) : result (list F) :=
  if bool_decide (n = length w ∧ Forall (λ row, length row = n) a)
  then Ok ((λ row, inner row w) <$> a)
  else Raise ValueError.

(** [np.cov(x, y)[0][1]] with the defaults [bias=False, ddof=None]: the
    centred inner product times [1 / (N - 1)]; [ValueError] when the two
    arrays differ in length.  numpy replaces a normaliser [N - 1 <= 0] by
    [0.0] and goes on. *)
Definition np_cov (x y : list F) : result F :=
  if decide (length x = length y) then
    let fact := of_Z (Z.max (Z.of_nat (length x) - 1) 0) in
    let avg_x := np_mean x in
    let avg_y := np_mean y in
    let x' := (λ a, (a - avg_x)%F) <$> x in
    let y' := (λ a, (a - avg_y)%F) <$> y in
    Ok (inner x' y' * (of_Z 1 / fact))%F
  else Raise ValueError.

(** [np.dot(x, y)] for two vectors: [ValueError] when their lengths
    differ. *)
Definition np_vdot (xs ys : list F) : result F :=
  if decide (length xs = length ys) then Ok (inner xs ys) else Raise ValueError.

(** [np.nanstd(xs, ddof=1)]: missing values are left out; the squared
    deviations from the mean are summed and divided by the count less one,
    and the result is not-a-number when that divisor is not positive. *)
Definition np_nanstd1 `{Sqrt F} (xs : list F) : F :=
  let vals := filter (λ x, isnan x = false) xs in
  let cnt := length vals in
  let avg := (np_sum vals / of_Z (Z.of_nat cnt))%F in
  let sqr := (λ v, ((v - avg) * (v - avg))%F) <$> vals in
  if decide (cnt ≤ 1) then nsqrt nan
  else nsqrt (np_sum sqr / of_Z (Z.of_nat cnt - 1))%F.

(** [np.zeros(n)] *)
Definition np_zeros (n : nat) : list F := replicate n (of_Z 0).

(** [a[where] = v] for an index, a slice or a mask [where], given by the
    positions it covers. *)
Definition np_setitem (a : list F) (where_ : list nat) (v : F) : list F :=
  foldr (λ i a, <[i:=v]> a) a where_.

End Numpy.

(** ** pandas *)

Definition date : Type := Z.

(** A [pd.Series]: labels and values, position by position. *)
Definition Series (K F : Type) : Type := list (K * F).

Definition index {K F} (s : Series K F) : list K := s.*1.
Definition values {K F} (s : Series K F) : list F := s.*2.

(** A [pd.DataFrame] with a date index: labelled columns, each as long as
    the index. *)
Record DataFrame (F : Type) : Type := mkDataFrame {
  df_index : list date;
  df_data : list (string * list F)
}.
Arguments mkDataFrame {F} df_index df_data.
Arguments df_index {F} d.
Arguments df_data {F} d.

Definition columns {F} (df : DataFrame F) : list string := (df_data df).*1.

Definition df_wf {F} (df : DataFrame F) : Prop :=
  Forall (λ c : string * list F, length c.2 = length (df_index df)) (df_data df).

Section Positions.
Context {A : Type}.

(** The positions at which a label occurs in an index. *)
Definition positions `{EqDecision A} (x : A) (l : list A) : list nat :=
  filter (λ i, l !! i = Some x) (seq 0 (length l)).

(** [Index.get_indexer_non_unique]: for each requested label, every position
    that carries it; [KeyError] for a label that occurs nowhere. *)
Fixpoint get_indexer `{EqDecision A} (idx : list A) (labels : list A)
    : result (list nat) :=
  match labels with
  | [] => Ok []
  | l :: labels' =>
      match positions l idx with
      | [] => Raise KeyError
      | ps => rest ← get_indexer idx labels'; Ok (ps ++ rest)
      end
  end.

(** [xs.take(ps)] *)
Definition take_positions (ps : list nat) (xs : list A) : list A :=
  omap (λ p, xs !! p) ps.

(** [xs[mask]] for a boolean mask. *)
Fixpoint compress (mask : list bool) (xs : list A) : list A :=
  match mask, xs with
  | b :: mask', x :: xs' => if b then x :: compress mask' xs' else compress mask' xs'
  | _, _ => []
  end.

End Positions.

Section Pandas.
Context {F : Type} `{Num F}.

(** [pd.Series(data, index=index)]: [ValueError] when the lengths differ. *)
Definition pd_Series {K} (data : list F) (idx : list K) : result (Series K F) :=
  if decide (length data = length idx) then Ok (zip idx data)
  else Raise ValueError.

(** [s.dropna()] *)
Definition dropna {K} (s : Series K F) : Series K F :=
  filter (λ p : K * F, isnan p.2 = false) s.

(** The value a series holds at a label (the first one, for a repeated
    label). *)
Fixpoint at_label {K} `{EqDecision K} (s : Series K F) (k : K) : option F :=
  match s with
  | [] => None
  | (k', v) :: s' => if decide (k = k') then Some v else at_label s' k
  end.

(** [s.reindex(target)]: the series itself when [target] is its index;
    otherwise, for each label of [target], the value at that label or
    not-a-number, and [ValueError] when the index of [s] repeats a label. *)
Definition reindex {K} `{EqDecision K} (s : Series K F) (target : list K)
    : result (Series K F) :=
  if decide (index s = target) then Ok s
  else if decide (NoDup (index s))
  then Ok ((λ k, (k, default nan (at_label s k))) <$> target)
  else Raise ValueError.

(** [s.loc[labels]] for an index of labels. *)
Definition series_loc {K} `{EqDecision K} (s : Series K F) (labels : list K)
    : result (Series K F) :=
  ps ← get_indexer (index s) labels;
  Ok (take_positions ps s).

(** [s.sum()]: missing values count as zero. *)
Definition nansum (xs : list F) : F :=
  np_sum ((λ x, if isnan x then of_Z 0 else x) <$> xs).

(** [s / c] for a scalar [c]. *)
Definition series_div {K} (s : Series K F) (c : F) : Series K F :=
  (λ p : K * F, (p.1, (p.2 / c)%F)) <$> s.

(** [Series.var(ddof=0)], which is what [np.var] calls on a series: missing
    values are left out; not-a-number when nothing remains. *)
Definition pd_var (xs : list F) : F :=
  let vals := filter (λ x, isnan x = false) xs in
  let count := length vals in
  if decide (count = 0) then nan
  else
    let avg := (np_sum vals / of_Z (Z.of_nat count))%F in
    let sqr := (λ v, ((avg - v) * (avg - v))%F) <$> vals in
    (np_sum sqr / of_Z (Z.of_nat count))%F.

(** Forward fill: a missing value takes the last value seen before it. *)
Fixpoint ffill_from (last : option F) (xs : list F) : list F :=
  match xs with
  | [] => []
  | x :: xs' =>
      if isnan x
      then default x last :: ffill_from last xs'
      else x :: ffill_from (Some x) xs'
  end.

(** [pct_change()] on one column, with the default [fill_method='pad']:
    forward fill, then [p_t / p_{t-1} - 1]; the first row has no
    predecessor. *)
Definition pct_change_values (xs : list F) : list F :=
  match ffill_from None xs with
  | [] => []
  | y :: ys => nan :: zip_with (λ prev cur, (cur / prev - of_Z 1)%F) (y :: ys) ys
  end.

Definition pct_change {K} (s : Series K F) : Series K F :=
  zip (index s) (pct_change_values (values s)).

Definition df_pct_change (df : DataFrame F) : DataFrame F :=
  mkDataFrame (df_index df)
    ((λ c : string * list F, (c.1, pct_change_values c.2)) <$> df_data df).

(** Does row [t] of the frame hold a missing value? *)
Definition row_has_nan (df : DataFrame F) (t : nat) : bool :=
  existsb (λ c : string * list F, from_option isnan false (c.2 !! t)) (df_data df).

(** [df.dropna()]: the rows without a missing value. *)
Definition df_dropna (df : DataFrame F) : DataFrame F :=
  let mask := (λ t, negb (row_has_nan df t)) <$> seq 0 (length (df_index df)) in
  mkDataFrame (compress mask (df_index df))
    ((λ c : string * list F, (c.1, compress mask c.2)) <$> df_data df).

(** [df.loc[labels]] for an index of row labels. *)
Definition df_loc (df : DataFrame F) (labels : list date) : result (DataFrame F) :=
  ps ← get_indexer (df_index df) labels;
  Ok (mkDataFrame (take_positions ps (df_index df))
        ((λ c : string * list F, (c.1, take_positions ps c.2)) <$> df_data df)).

(** [df[labels]] for a list of column labels: every column that carries a
    requested label, in the order requested; [KeyError] for a label no column
    carries. *)
Fixpoint df_getitem_data (data : list (string * list F)) (labels : list string)
    : result (list (string * list F)) :=
  match labels with
  | [] => Ok []
  | l :: labels' =>
      match filter (λ c : string * list F, c.1 = l) data with
      | [] => Raise KeyError
      | cs => rest ← df_getitem_data data labels'; Ok (cs ++ rest)
      end
  end.

Definition df_getitem (df : DataFrame F) (labels : list string)
    : result (DataFrame F) :=
  data ← df_getitem_data (df_data df) labels;
  Ok (mkDataFrame (df_index df) data).

(** [df.sum()]: the sum of each column, labelled by the column. *)
Definition df_sum (df : DataFrame F) : Series string F :=
  (λ c : string * list F, (c.1, nansum c.2)) <$> df_data df.

(** [df.values]: the matrix of the frame, row by row. *)
Definition df_values (df : DataFrame F) : list (list F) :=
  (λ t, omap (λ c : string * list F, c.2 !! t) (df_data df))
    <$> seq 0 (length (df_index df)).

(** [df.iloc[-1]]: the last row, labelled by the columns. *)
Definition df_iloc_last (df : DataFrame F) : result (Series string F) :=
  match length (df_index df) with
  | O => Raise IndexError
  | S t => Ok (omap (λ c : string * list F, (λ v, (c.1, v)) <$> c.2 !! t) (df_data df))
  end.

End Pandas.

(** ** The program *)

(** A transaction is the tuple [(stock, date, quantity, amount_invested)]. *)
Definition transaction (F : Type) : Type := string * string * F * F.

Definition tx_stock {F} (t : transaction F) : string := t.1.1.1.
Definition tx_amount {F} (t : transaction F) : F := t.2.

Section Program.
Context {F : Type} `{Num F}.

(** [get_current_prices], from the frame the one-day download returns. *)
Definition get_current_prices (stock_data : DataFrame F) : result (Series string F) :=
  df_iloc_last stock_data.

(** Lines 44-45 of [update_data]: the benchmark returns are conformed to the
    dates of the instrument returns, the dates without a benchmark return
    are dropped, and the instrument returns are cut down to what is left. *)
Definition align_returns (daily_returns : DataFrame F)
    (market_daily_returns : Series date F)
    : result (DataFrame F * Series date F) :=
  market_daily_returns ← reindex market_daily_returns (df_index daily_returns);
  let market_daily_returns := dropna market_daily_returns in
  daily_returns ← df_loc daily_returns (index market_daily_returns);
  Ok (daily_returns, market_daily_returns).

(** [update_data], from the two downloads of prices. *)
Definition update_data (stock_data : DataFrame F) (market_data : Series date F)
    : result (DataFrame F * Series date F) :=
  let daily_returns := df_dropna (df_pct_change stock_data) in
  let market_daily_returns := dropna (pct_change market_data) in
  align_returns daily_returns market_daily_returns.

(** The block every strategy repeats (lines 75-78, 120-124, 155-158,
    187-190): the daily returns of the weighted portfolio, their mean, their
    standard deviation and the ratio of the two. *)
Definition portfolio_performance `{Sqrt F} (daily_returns : DataFrame F)
    (portfolio_weights : list F) : result (list F * F * F * F) :=
  portfolio_daily_returns ←
    np_dot (df_values daily_returns) (length (columns daily_returns))
      portfolio_weights;
  let portfolio_return := np_mean portfolio_daily_returns in
  let portfolio_risk := np_std portfolio_daily_returns in
  let sharpe_ratio := (portfolio_return / portfolio_risk)%F in
  Ok (portfolio_daily_returns, portfolio_return, portfolio_risk, sharpe_ratio).

(** The block that follows it (lines 82-84, 127-129, 161-163, 193-195), from
    the benchmark returns [load_market_data(...).pct_change().dropna()]. *)
Definition portfolio_beta (daily_returns : DataFrame F)
    (portfolio_daily_returns : list F) (market_daily_returns : Series date F)
    : result F :=
  market_daily_returns ← reindex market_daily_returns (df_index daily_returns);
  let market_daily_returns := dropna market_daily_returns in
  s ← pd_Series portfolio_daily_returns (df_index daily_returns);
  portfolio_daily_returns ← series_loc s (index market_daily_returns);
  c ← np_cov (values portfolio_daily_returns) (values market_daily_returns);
  Ok (c / pd_var (values market_daily_returns))%F.

(** Lines 64-69: the amount invested in each stock. *)
Definition invested_amounts (transactions : list (transaction F)) : dict string F :=
  fold_left
    (λ invested_amounts t,
       match dict_get invested_amounts (tx_stock t) with
       | Some a => dict_set invested_amounts (tx_stock t) (a + tx_amount t)%F
       | None => dict_set invested_amounts (tx_stock t) (tx_amount t)
       end)
    transactions [].

(** Line 73: the weight of each column of the returns. *)
Fixpoint portfolio_weights_of (invested : dict string F) (total_invested : F)
    (unique_stocks : list string) : result (list F) :=
  match unique_stocks with
  | [] => Ok []
  | stock :: rest =>
      match dict_get invested stock with
      | None => Raise KeyError
      | Some a =>
          w ← py_truediv a total_invested;
          ws ← portfolio_weights_of invested total_invested rest;
          Ok (w :: ws)
      end
  end.

Definition calculate_portfolio_statistics `{Sqrt F} (stock_data : DataFrame F)
    (market_data : Series date F) (transactions : list (transaction F))
    : result (F * F * F * F) :=
  let daily_returns := df_dropna (df_pct_change stock_data) in
  let unique_stocks := columns daily_returns in
  let invested := invested_amounts transactions in
  let total_invested := py_sum (dict_values invested) in
  portfolio_weights ← portfolio_weights_of invested total_invested unique_stocks;
  perf ← portfolio_performance daily_returns portfolio_weights;
  let '(portfolio_daily_returns, portfolio_return, portfolio_risk, sharpe_ratio) := perf in
  let market_daily_returns := dropna (pct_change market_data) in
  beta ← portfolio_beta daily_returns portfolio_daily_returns market_daily_returns;
  Ok (portfolio_return, portfolio_risk, sharpe_ratio, beta).

(** [columns.get_loc(stock)]: an index, a slice or a mask, given by the
    positions it covers; [KeyError] when no column carries the label. *)
Definition get_loc (cols : list string) (stock : string) : result (list nat) :=
  match positions stock cols with
  | [] => Raise KeyError
  | ps => Ok ps
  end.

(** The loop of [EWP_inner]: the right-hand side of the assignment is
    evaluated before the subscript. *)
Fixpoint EWP_loop (cols : list string) (n : nat) (weight : list F)
    (stocks : list string) : result (list F) :=
  match stocks with
  | [] => Ok weight
  | stock :: rest =>
      v ← py_int_truediv 1 (Z.of_nat n);
      loc ← get_loc cols stock;
      EWP_loop cols n (np_setitem weight loc v) rest
  end.

Definition EWP_inner (returns : DataFrame F) (selected_stocks : list string)
    : result (list F) :=
  let weight := np_zeros (length (columns returns)) in
  EWP_loop (columns returns) (length selected_stocks) weight selected_stocks.

(** The objective of the most-diversified portfolio (lines 92-97): minus
    the weighted volatilities of the columns over the volatility of the
    weighted returns.  The sign is changed by multiplying by -1, which
    changes nothing else. *)
Definition weighted_std `{Sqrt F} (weights : list F) (data : DataFrame F)
    : result F :=
  let vol := (λ c : string * list F, np_nanstd1 c.2) <$> df_data data in
  numerator ← np_vdot weights vol;
  p ← np_dot (df_values data) (length (columns data)) weights;
  let vol_p := np_std p in
  Ok (of_Z (-1) * numerator / vol_p)%F.

(** What [scipy.optimize.minimize] is asked: an objective, a starting
    point, constraint functions that are to be zero, and a pair of bounds
    for each coordinate. *)
Record problem : Type := mkProblem {
  objective : list F → result F;
  start : list F;
  eq_constraints : list (list F → F);
  bounds : list (F * F)
}.

(** The solver, which is not part of the program: from a problem to the
    point [sol.x] it returns. *)
Definition solver : Type := problem → list F.

(** The arguments of [minimize] at lines 101-105: every coordinate between
    0 and 1, the coordinates summing to 1, starting from 0.01 each. *)
Definition MDP_problem `{Sqrt F} (returns : DataFrame F) : problem :=
  let n := length (columns returns) in
  let bounds := (λ _, (of_Z 0, of_Z 1)) <$> seq 0 n in
  let cons := [λ x : list F, (py_sum x - of_Z 1)%F] in
  let x0 := (λ z, (z + of_Z 1 / of_Z 100)%F) <$> np_zeros n in
  mkProblem (λ weights, weighted_std weights returns) x0 cons bounds.

(** [calculate_MDP_weights]: the point the solver returns, whether or not
    the solver reports success. *)
Definition calculate_MDP_weights `{Sqrt F} (minimize : solver)
    (returns : DataFrame F) : list F :=
  minimize (MDP_problem returns).

(** The function [RWP] that the strategy [RWP] defines and calls. *)
Definition RWP_inner (returns : DataFrame F) (selected_stocks : list string)
    : result (Series string F) :=
  numerator ← df_getitem returns selected_stocks;
  denominator ← df_getitem returns selected_stocks;
  Ok (series_div (df_sum numerator) (nansum (values (df_sum denominator)))).

Definition calculate_investments (transactions : list (transaction F))
    (weights : list F) (current_prices : Series string F)
    : result (dict string F) :=
  let total_investment := py_sum (tx_amount <$> transactions) in
  let investments :=
    dict_of ((λ sw : string * F, (sw.1, (sw.2 * total_investment)%F))
               <$> zip (index current_prices) weights) in
  Ok investments.

(** The strategy [EWP], from the downloads it makes and an enumeration
    [selected_stocks] of the set of stocks of the transactions. *)
Definition EWP `{Sqrt F} (stock_data : DataFrame F) (market_data : Series date F)
    (latest : DataFrame F) (selected_stocks : list string)
    (transactions : list (transaction F))
    : result (list F * dict string F * F * F * F * F) :=
  aligned ← update_data stock_data market_data;
  let daily_returns := aligned.1 in
  selected_returns ← df_getitem daily_returns selected_stocks;
  ewp_weights ← EWP_inner selected_returns selected_stocks;
  current_prices ← get_current_prices latest;
  investments ← calculate_investments transactions ewp_weights current_prices;
  perf ← portfolio_performance daily_returns ewp_weights;
  let '(portfolio_daily_returns, portfolio_return, portfolio_risk, sharpe_ratio) := perf in
  let market_daily_returns := dropna (pct_change market_data) in
  beta ← portfolio_beta daily_returns portfolio_daily_returns market_daily_returns;
  Ok (ewp_weights, investments, portfolio_return, portfolio_risk, sharpe_ratio, beta).

(** The strategy [RWP], likewise. *)
Definition RWP `{Sqrt F} (stock_data : DataFrame F) (market_data : Series date F)
    (latest : DataFrame F) (selected_stocks : list string)
    (transactions : list (transaction F))
    : result (Series string F * dict string F * F * F * F * F) :=
  aligned ← update_data stock_data market_data;
  let daily_returns := aligned.1 in
  selected_returns ← df_getitem daily_returns selected_stocks;
  rwp_weights ← RWP_inner selected_returns selected_stocks;
  current_prices ← get_current_prices latest;
  investments ← calculate_investments transactions (values rwp_weights) current_prices;
  perf ← portfolio_performance daily_returns (values rwp_weights);
  let '(portfolio_daily_returns, portfolio_return, portfolio_risk, sharpe_ratio) := perf in
  let market_daily_returns := dropna (pct_change market_data) in
  beta ← portfolio_beta daily_returns portfolio_daily_returns market_daily_returns;
  Ok (rwp_weights, investments, portfolio_return, portfolio_risk, sharpe_ratio, beta).

End Program.

(** ** Reference notions *)

(** The sum of a list of rationals. *)
Definition Qsum (qs : list Qc) : Qc := foldr Qcplus 0%Qc qs.

(** A frame of rationals, as a frame of the exact number type. *)
Definition exact_frame (df : DataFrame Qc) : DataFrame Exact.t :=
  mkDataFrame (df_index df)
    ((λ c : string * list Qc, (c.1, Exact.Fin <$> c.2)) <$> df_data df).

(** A series of rationals, as a series of the exact number type. *)
Definition exact_series {K} (s : Series K Qc) : Series K Exact.t :=
  (λ p : K * Qc, (p.1, Exact.Fin p.2)) <$> s.

(** A count, as a rational. *)
Definition Qnat (n : nat) : Qc := Q2Qc (inject_Z (Z.of_nat n)).

(** The summed daily returns of an instrument: the sum of its column. *)
Definition column_sum (returns : DataFrame Qc) (stock : string) : Qc :=
  Qsum (default [] (dict_get (df_data returns) stock)).

(** The grand total of the summed daily returns of the selected
    instruments. *)
Definition grand_total (returns : DataFrame Qc) (selected : list string) : Qc :=
  Qsum (column_sum returns <$> selected).

(** The arithmetic mean. *)
Definition Qmean (xs : list Qc) : Qc := (Qsum xs / Qnat (length xs))%Qc.

(** The covariance of two samples of one length, normalised by the length
    less [ddof]: [ddof = 0] for a population, [ddof = 1] for a sample. *)
Definition covariance (ddof : nat) (xs ys : list Qc) : Qc :=
  (Qsum (zip_with (λ x y, (x - Qmean xs) * (y - Qmean ys)) xs ys)
   / Qnat (length xs - ddof))%Qc.

Definition variance (ddof : nat) (xs : list Qc) : Qc := covariance ddof xs xs.

(** The entries of a series at a list of labels, for the labels it has. *)
Definition entries_at {K F} `{EqDecision K} (s : Series K F) (labels : list K)
    : Series K F :=
  omap (λ k, pair k <$> at_label s k) labels.

(** The values of a series on a list of dates. *)
Definition series_on (s : Series date Qc) (dates : list date) : list Qc :=
  (λ d, default 0%Qc (at_label s d)) <$> dates.


(** The number a finite binary64 value stands for: [m * 2^e]; nothing for
    an infinity and for not-a-number. *)
Definition float_value (x : Binary64.t) : option Qc :=
  match x with
  | S754_zero _ => Some 0%Qc
  | S754_finite s m e =>
      let mag := match e with
                 | Z0 => Q2Qc (Z.pos m # 1)
                 | Z.pos p => Q2Qc (Z.pos m * Z.pow_pos 2 p # 1)
                 | Z.neg p => Q2Qc (Z.pos m # Pos.pow 2 p)
                 end in
      Some (if s then (- mag)%Qc else mag)
  | _ => None
  end.

(** The numbers that finite binary64 values stand for; nothing when one of
    them is an infinity or not-a-number. *)
Definition float_values (xs : list Binary64.t) : option (list Qc) :=
  mapM float_value xs.

(** The tolerance of the weight invariant, [1e-9]. *)
Definition tolerance : Qc := qc 1 1000000000.

(** Within [tol] of 1. *)
Definition near_one (tol x : Qc) : Prop := (x - 1 ≤ tol ∧ 1 - x ≤ tol)%Qc.

#[global] Instance near_one_dec tol x : Decision (near_one tol x).
Proof. unfold near_one. apply _. Defined.




(** ** Sample data *)

Module Sample.

(** The two purchases of the allocation example: 1000 in A and 500 in B. *)
Definition transactions : list (transaction Exact.t) :=
  [("A", "d1", Exact.of_Z 10, Exact.of_Z 1000);
   ("B", "d1", Exact.of_Z 5, Exact.of_Z 500)]%string.

Definition transactions64 : list (transaction Binary64.t) :=
  [("A", "d1", Binary64.of_Z 10, Binary64.of_Z 1000);
   ("B", "d1", Binary64.of_Z 5, Binary64.of_Z 500)]%string.

(** Latest prices: A at 100, B at 50. *)
Definition current_prices : Series string Exact.t :=
  [("A", Exact.of_Z 100); ("B", Exact.of_Z 50)]%string.

Definition current_prices64 : Series string Binary64.t :=
  [("A", Binary64.of_Z 100); ("B", Binary64.of_Z 50)]%string.

(** Other quotes for the same two instruments. *)
Definition other_prices : Series string Exact.t :=
  [("A", Exact.of_Z 7); ("B", Exact.NaN)]%string.

(** Three days of returns of A and B, in 64ths. *)
Definition returns_AB : DataFrame Qc :=
  mkDataFrame [1; 2; 3]%Z
    [("A", [qc 1 64; qc 1 64; qc 1 64]);
     ("B", [qc (-1) 64; qc 0 1; qc 0 1])]%string.

Definition returns_AB64 : DataFrame Binary64.t :=
  mkDataFrame [1; 2; 3]%Z
    [("A", [Binary64.dyadic 1 (-6); Binary64.dyadic 1 (-6); Binary64.dyadic 1 (-6)]);
     ("B", [Binary64.dyadic (-1) (-6); Binary64.of_Z 0; Binary64.of_Z 0])]%string.

(** Three days on which A returns one half. *)
Definition constant_returns64 : DataFrame Binary64.t :=
  mkDataFrame [1; 2; 3]%Z
    [("A", [Binary64.dyadic 1 (-1); Binary64.dyadic 1 (-1); Binary64.dyadic 1 (-1)])]%string.

(** Prices of A that double every day, against a benchmark at 10, 20, 30
    and 60, and one purchase of A. *)
Definition doubling_prices64 : DataFrame Binary64.t :=
  mkDataFrame [1; 2; 3; 4]%Z
    [("A", [Binary64.of_Z 1; Binary64.of_Z 2; Binary64.of_Z 4; Binary64.of_Z 8])]%string.

Definition market_prices64 : Series date Binary64.t :=
  [(1, Binary64.of_Z 10); (2, Binary64.of_Z 20); (3, Binary64.of_Z 30);
   (4, Binary64.of_Z 60)]%Z.

Definition purchase64 : list (transaction Binary64.t) :=
  [("A", "d1", Binary64.of_Z 10, Binary64.of_Z 1000)]%string.

(** Prices of A at 1, 2 and 6, so that A returns 1 and 2, against a
    benchmark at 1, 3 and 15, which returns 2 and 4. *)
Definition prices_A64 : DataFrame Binary64.t :=
  mkDataFrame [1; 2; 3]%Z
    [("A", [Binary64.of_Z 1; Binary64.of_Z 2; Binary64.of_Z 6])]%string.

Definition benchmark_prices64 : Series date Binary64.t :=
  [(1, Binary64.of_Z 1); (2, Binary64.of_Z 3); (3, Binary64.of_Z 15)]%Z.

(** Prices of A and B on three days, and the one-day download of their
    latest prices, 100 and 50. *)
Definition prices_AB64 : DataFrame Binary64.t :=
  mkDataFrame [1; 2; 3]%Z
    [("A", [Binary64.of_Z 1; Binary64.of_Z 2; Binary64.of_Z 6]);
     ("B", [Binary64.of_Z 2; Binary64.of_Z 3; Binary64.of_Z 6])]%string.

Definition latest_AB64 : DataFrame Binary64.t :=
  mkDataFrame [4]%Z [("A", [Binary64.of_Z 100]); ("B", [Binary64.of_Z 50])]%string.

(** Prices of A rising from 1 to 2 to 6 and of B falling from 4 to 2 to 1. *)
Definition prices_rise_fall64 : DataFrame Binary64.t :=
  mkDataFrame [1; 2; 3]%Z
    [("A", [Binary64.of_Z 1; Binary64.of_Z 2; Binary64.of_Z 6]);
     ("B", [Binary64.of_Z 4; Binary64.of_Z 2; Binary64.of_Z 1])]%string.

(** Five days on which A returns 1/64, ..., 5/64 and the benchmark twice as
    much. *)
Definition rising : list Qc := [qc 1 64; qc 2 64; qc 3 64; qc 4 64; qc 5 64].

Definition returns5 : DataFrame Qc :=
  mkDataFrame [1; 2; 3; 4; 5]%Z [("A"%string, rising)].

Definition benchmark5 : Series date Qc :=
  zip [1; 2; 3; 4; 5]%Z ((λ q, 2 * q)%Qc <$> rising).

Definition returns5_64 : DataFrame Binary64.t :=
  mkDataFrame [1; 2; 3; 4; 5]%Z
    [("A"%string, (λ m, Binary64.dyadic m (-6)) <$> [1; 2; 3; 4; 5]%Z)].

Definition benchmark5_64 : Series date Binary64.t :=
  zip [1; 2; 3; 4; 5]%Z ((λ m, Binary64.dyadic m (-6)) <$> [2; 4; 6; 8; 10]%Z).

(** Four days of prices of A, one of them missing, and benchmark prices on
    the days 1, 3, 4 and 5. *)
Definition stock_data : DataFrame Exact.t :=
  mkDataFrame [1; 2; 3; 4]%Z
    [("A", [Exact.of_Z 100; Exact.of_Z 110; Exact.NaN; Exact.of_Z 121])]%string.

Definition market_data : Series date Exact.t :=
  [(1, Exact.of_Z 10); (3, Exact.of_Z 20); (4, Exact.of_Z 30); (5, Exact.of_Z 30)]%Z.

(** One day on which A returns a little under 1/128, B loses almost as
    much and C returns [2^-59]: the sums of A and B nearly cancel. *)
Definition cancelling_returns64 : DataFrame Binary64.t :=
  mkDataFrame [1]%Z
    [("A", [Binary64.dyadic 9007199254740991 (-60)]);
     ("B", [Binary64.dyadic (-9007199254740990) (-60)]);
     ("C", [Binary64.dyadic 2 (-60)])]%string.


End Sample.

(** ** Transactions of rationals *)

(** A transaction of rationals, as a transaction of the exact number type. *)
Definition exact_transaction (t : transaction Qc) : transaction Exact.t :=
  (t.1.1.1, t.1.1.2, Exact.Fin t.1.2, Exact.Fin t.2).

(** The amount invested in a stock: the sum of the amounts of its
    transactions. *)
Definition invested_in (transactions : list (transaction Qc)) (stock : string) : Qc :=
  Qsum (tx_amount <$> filter (λ t, tx_stock t = stock) transactions).

(** * Properties *)

(** ** Lists, dictionaries and positions *)

Section DictFacts.
Context {K V : Type} `{EqDecision K}.
Implicit Types (d : dict K V) (k : K) (v : V).

Lemma dict_set_fresh d k v :
  k ∉ d.*1 → dict_set d k v = d ++ [(k, v)].
Proof.
  induction d as [|[k' v'] d IH]; simpl; [done|].
  intros Hk. apply not_elem_of_cons in Hk as [Hne Hk].
  rewrite decide_False by done. by rewrite IH.
Qed.

Lemma dict_of_acc_NoDup (kvs acc : list (K * V)) :
  NoDup (acc ++ kvs).*1 →
  fold_left (λ d kv, dict_set d kv.1 kv.2) kvs acc = acc ++ kvs.
Proof.
  revert acc. induction kvs as [|[k v] kvs IH]; intros acc Hnd; simpl.
  - by rewrite app_nil_r.
  - rewrite dict_set_fresh.
    + rewrite IH; rewrite <- app_assoc; done.
    + rewrite fmap_app in Hnd. apply NoDup_app in Hnd as (_ & Hdisj & _).
      intros Hin. apply (Hdisj k Hin). simpl. left.
Qed.

Lemma dict_of_NoDup (kvs : list (K * V)) :
  NoDup kvs.*1 → dict_of kvs = kvs.
Proof. intros Hnd. unfold dict_of. by rewrite dict_of_acc_NoDup. Qed.

Lemma dict_get_lookup_NoDup d i k v :
  NoDup d.*1 → d !! i = Some (k, v) → dict_get d k = Some v.
Proof.
  revert i. induction d as [|[k' v'] d IH]; intros i Hnd Hi; [done|].
  apply NoDup_cons in Hnd as [Hk' Hnd]. simpl.
  destruct i as [|i]; simpl in Hi.
  - inversion Hi; subst. by rewrite decide_True.
  - rewrite decide_False; [by eapply IH|].
    intros ->. apply Hk'. apply list_elem_of_fmap.
    exists (k', v). split; [done|]. by eapply list_elem_of_lookup_2.
Qed.

End DictFacts.

Lemma fst_zip_take {A B} (l : list A) (k : list B) :
  (zip l k).*1 = take (length k) l.
Proof.
  revert k. induction l as [|a l IH]; intros [|b k]; simpl; try done.
  by rewrite IH.
Qed.

Lemma snd_zip_take {A B} (l : list A) (k : list B) :
  (zip l k).*2 = take (length l) k.
Proof.
  revert k. induction l as [|a l IH]; intros [|b k]; simpl; try done.
  by rewrite IH.
Qed.

Lemma filter_Forall_id {A} (P : A → Prop) `{∀ x, Decision (P x)} (l : list A) :
  Forall P l → filter P l = l.
Proof.
  induction 1 as [|x l Hx _ IH]; [done|].
  rewrite filter_cons_True by done. by rewrite IH.
Qed.

Lemma NoDup_take {A} (l : list A) n : NoDup l → NoDup (take n l).
Proof. intros Hnd. exact (sublist_NoDup _ _ Hnd (sublist_take l n)). Qed.

(** ** calculate_investments *)

Section InvestmentFacts.
Context {F : Type} `{Num F}.
Implicit Types (transactions : list (transaction F)) (weights : list F)
  (current_prices : Series string F).

(** The dictionary built is the list of the pairs (instrument, weight times
    total), position by position, cut at the shorter of the two sequences. *)
Lemma calculate_investments_pairs transactions weights current_prices :
  NoDup (index current_prices) →
  calculate_investments transactions weights current_prices =
    Ok (zip (index current_prices)
          ((λ w, (w * py_sum (tx_amount <$> transactions))%F) <$> weights)).
Proof.
  intros Hnd. unfold calculate_investments. f_equal.
  set (total := py_sum _).
  assert (Hzip : (λ sw : string * F, (sw.1, (sw.2 * total)%F))
            <$> zip (index current_prices) weights
          = zip (index current_prices) ((λ w, (w * total)%F) <$> weights)).
  { generalize (index current_prices). intros l. revert weights.
    induction l as [|a l IH]; intros [|w ws]; simpl; try done.
    by rewrite IH. }
  rewrite Hzip. apply dict_of_NoDup.
  rewrite fst_zip_take. by apply NoDup_take.
Qed.

Lemma calculate_investments_length transactions weights current_prices :
  NoDup (index current_prices) →
  ∃ allocation,
    calculate_investments transactions weights current_prices = Ok allocation
    ∧ length allocation = min (length current_prices) (length weights).
Proof.
  intros Hnd. eexists. split; [by apply calculate_investments_pairs|].
  rewrite length_zip, length_fmap. unfold index. by rewrite length_fmap.
Qed.

End InvestmentFacts.

(** ** Sums of finite numbers in the exact arithmetic *)


Lemma fold_left_add_Fin (qs : list Qc) (a : Qc) :
  fold_left nadd (Exact.Fin <$> qs) (Exact.Fin a) = Exact.Fin (a + Qsum qs).
Proof.
  revert a. induction qs as [|q qs IH]; intros a; simpl.
  - f_equal. ring.
  - rewrite IH. f_equal. ring.
Qed.

Lemma py_sum_Fin (qs : list Qc) : py_sum (Exact.Fin <$> qs) = Exact.Fin (Qsum qs).
Proof.
  unfold py_sum. change (of_Z 0) with (Exact.Fin 0%Qc).
  rewrite fold_left_add_Fin. f_equal. ring.
Qed.

Lemma np_sum_Fin (qs : list Qc) : np_sum (Exact.Fin <$> qs) = Exact.Fin (Qsum qs).
Proof.
  destruct qs as [|q qs]; [done|]. simpl. apply fold_left_add_Fin.
Qed.

Lemma nansum_Fin (qs : list Qc) : nansum (Exact.Fin <$> qs) = Exact.Fin (Qsum qs).
Proof.
  unfold nansum. rewrite <- list_fmap_compose. apply np_sum_Fin.
Qed.

Lemma Qsum_scale (c : Qc) (qs : list Qc) :
  Qsum ((λ q, q * c)%Qc <$> qs) = (Qsum qs * c)%Qc.
Proof.
  induction qs as [|q qs IH]; csimpl; [ring|].
  unfold Qsum in *. simpl. rewrite IH. ring.
Qed.


(** ** The allocation *)

(** The allocation by position.  [calculate_investments] takes for total
    the sum of the amounts of all the transactions; the keys of the
    allocation are the instruments of [current_prices] in the order
    [current_prices] lists them (all of them when there is a weight for
    each, and as far as there are weights otherwise), and the instrument at
    a position is mapped to the weight at that position times the total.  In
    the example of the two purchases, 1000 in A and 500 in B, with the equal
    weights of A and B, the allocation is A: 750, B: 750, in exact
    arithmetic and in binary64, also as the strategy [EWP] returns it. *)
Lemma calculate_investments_allocation {F : Type} `{Num F}
    (transactions : list (transaction F)) (weights : list F)
    (current_prices : Series string F) :
  NoDup (index current_prices) →
  ∃ allocation,
    calculate_investments transactions weights current_prices = Ok allocation
    ∧ dict_keys allocation = take (length weights) (index current_prices)
    ∧ (length current_prices ≤ length weights →
       dict_keys allocation = index current_prices)
    ∧ (∀ i stock w,
         index current_prices !! i = Some stock → weights !! i = Some w →
         dict_get allocation stock
           = Some (w * py_sum (tx_amount <$> transactions))%F)
    ∧ py_sum (tx_amount <$> Sample.transactions) = Exact.of_Z 1500
    ∧ (w ← EWP_inner (exact_frame Sample.returns_AB) ["A"; "B"]%string;
       calculate_investments Sample.transactions w Sample.current_prices)
      = Ok [("A", Exact.of_Z 750); ("B", Exact.of_Z 750)]%string
    ∧ calculate_investments Sample.transactions64
        [Binary64.dyadic 1 (-1); Binary64.dyadic 1 (-1)] Sample.current_prices64
      = Ok [("A", Binary64.of_Z 750); ("B", Binary64.of_Z 750)]%string
    ∧ get_current_prices Sample.latest_AB64 = Ok Sample.current_prices64
    ∧ ∃ portfolio_return portfolio_risk sharpe_ratio beta,
        EWP Sample.prices_AB64 Sample.benchmark_prices64 Sample.latest_AB64
          ["A"; "B"]%string Sample.transactions64
        = Ok ([Binary64.dyadic 1 (-1); Binary64.dyadic 1 (-1)],
              [("A", Binary64.of_Z 750); ("B", Binary64.of_Z 750)]%string,
              portfolio_return, portfolio_risk, sharpe_ratio, beta).
Proof.
  intros Hnd. eexists. split; [by apply calculate_investments_pairs|].
  split; [|split; [|split; [|split; [|split; [|split; [|split]]]]]].
  - unfold dict_keys. rewrite fst_zip_take. by rewrite length_fmap.
  - intros Hlen. unfold dict_keys. rewrite fst_zip_take, length_fmap.
    apply take_ge. unfold index. rewrite length_fmap. lia.
  - intros i stock w Hi Hw.
    apply (dict_get_lookup_NoDup _ i).
    + rewrite fst_zip_take. by apply NoDup_take.
    + apply lookup_zip_with_Some. exists stock, (w * py_sum (tx_amount <$> transactions))%F.
      split; [done|]. split; [done|]. by rewrite list_lookup_fmap, Hw.
  - compute_done.
  - compute_done.
  - compute_done.
  - compute_done.
  - eexists _, _, _, _. by vm_compute.
Qed.

(** The example of the two purchases, from the lemma. *)
Lemma calculate_investments_allocation_example :
  NoDup (index Sample.current_prices)
  ∧ ∃ allocation,
      calculate_investments Sample.transactions [Exact.frac 1 2; Exact.frac 1 2]
        Sample.current_prices = Ok allocation
      ∧ dict_get allocation "A"%string = Some (Exact.of_Z 750)
      ∧ dict_get allocation "B"%string = Some (Exact.of_Z 750).
Proof.
  assert (Hnd : NoDup (index Sample.current_prices)).
  { compute_done. }
  split; [exact Hnd|].
  destruct (calculate_investments_allocation Sample.transactions
              [Exact.frac 1 2; Exact.frac 1 2] Sample.current_prices Hnd)
    as (allocation & Hok & _ & _ & Hget & _).
  exists allocation. split; [exact Hok|]. split.
  - rewrite (Hget 0%nat "A"%string (Exact.frac 1 2) eq_refl eq_refl). compute_done.
  - rewrite (Hget 1%nat "B"%string (Exact.frac 1 2) eq_refl eq_refl). compute_done.
Defined.

(** C7.  The claim is that every instrument of [current_prices] is mapped
    to its own weight times the total invested.  [calculate_investments]
    pairs by position instead, and the strategy [RWP] hands it weights
    labelled in the order in which the set of stocks is enumerated: for the
    purchases of 1000 in A and 500 in B, the stocks enumerated B, A and the
    prices labelled A, B, the strategy returns the weights B: -1/2, A: 3/2
    together with the allocation A: -750, B: 2250.  The weight of A times the
    total of 1500 is 2250, which the allocation gives to B. *)
Theorem calculate_investments_mispairs_weights :
  let rwp_weights : Series string Binary64.t :=
    [("B", Binary64.dyadic (-1) (-1)); ("A", Binary64.dyadic 3 (-1))]%string in
  let investments : dict string Binary64.t :=
    [("A", Binary64.of_Z (-750)); ("B", Binary64.of_Z 2250)]%string in
  (∃ portfolio_return portfolio_risk sharpe_ratio beta,
     RWP Sample.prices_rise_fall64 Sample.benchmark_prices64 Sample.latest_AB64
       ["B"; "A"]%string Sample.transactions64
     = Ok (rwp_weights, investments,
           portfolio_return, portfolio_risk, sharpe_ratio, beta))
  ∧ get_current_prices Sample.latest_AB64 = Ok Sample.current_prices64
  ∧ index Sample.current_prices64 = ["A"; "B"]%string
  ∧ calculate_investments Sample.transactions64 (values rwp_weights)
      Sample.current_prices64 = Ok investments
  ∧ py_sum (tx_amount <$> Sample.transactions64) = Binary64.of_Z 1500
  ∧ (λ w, (w * Binary64.of_Z 1500)%F) <$> at_label rwp_weights "A"%string
    = Some (Binary64.of_Z 2250)
  ∧ dict_get investments "A"%string = Some (Binary64.of_Z (-750))
  ∧ Binary64.of_Z (-750) ≠ Binary64.of_Z 2250.
Proof.
  intros rwp_weights investments.
  split; [eexists _, _, _, _; by vm_compute|].
  repeat split; by vm_compute.
Qed.

(** C9. Two series of current prices that list the same instruments in the
    same order give the same allocation, whatever the prices they carry. *)
Theorem calculate_investments_ignores_prices {F : Type} `{Num F}
    (transactions : list (transaction F)) (weights : list F)
    (prices1 prices2 : Series string F) :
  index prices1 = index prices2 →
  calculate_investments transactions weights prices1
  = calculate_investments transactions weights prices2.
Proof. intros Hidx. unfold calculate_investments. by rewrite Hidx. Qed.

(** C9 at the example: the quotes 100 and 50 against 7 and a missing one. *)
Lemma calculate_investments_ignores_prices_example :
  index Sample.current_prices = index Sample.other_prices
  ∧ calculate_investments Sample.transactions [Exact.frac 1 2; Exact.frac 1 2]
      Sample.current_prices
    = calculate_investments Sample.transactions [Exact.frac 1 2; Exact.frac 1 2]
        Sample.other_prices.
Proof.
  split; [reflexivity|].
  apply calculate_investments_ignores_prices. reflexivity.
Defined.




(** ** Positions of labels *)

Section PositionFacts.
Context {A : Type} `{EqDecision A}.
Implicit Types (x : A) (l : list A).

Lemma elem_of_positions x l i : i ∈ positions x l ↔ l !! i = Some x.
Proof.
  unfold positions. rewrite list_elem_of_filter, elem_of_seq. split.
  - by intros [? _].
  - intros Hi. split; [done|]. apply lookup_lt_Some in Hi. lia.
Qed.

Lemma positions_nonempty x l : x ∈ l → positions x l ≠ [].
Proof.
  intros [i Hi]%list_elem_of_lookup Hnil.
  apply elem_of_positions in Hi. rewrite Hnil in Hi. by apply elem_of_nil in Hi.
Qed.

End PositionFacts.

(** ** numpy assignment *)

Section SetitemFacts.
Context {F : Type} `{Num F}.

Lemma np_setitem_length (a : list F) ps v : length (np_setitem a ps v) = length a.
Proof.
  induction ps as [|p ps IH]; simpl; [done|]. by rewrite length_insert.
Qed.

Lemma np_setitem_lookup (a : list F) ps v j :
  np_setitem a ps v !! j
  = if decide (j ∈ ps) then (if decide (j < length a) then Some v else None)
    else a !! j.
Proof.
  induction ps as [|p ps IH].
  - destruct (decide (j ∈ [])) as [Hin|]; [by apply elem_of_nil in Hin|done].
  - change (np_setitem a (p :: ps) v) with (<[p:=v]> (np_setitem a ps v)).
    destruct (decide (p = j)) as [->|Hne].
    + destruct (decide (j ∈ j :: ps)) as [_|Hnin]; [|exfalso; apply Hnin; left].
      destruct (decide (j < length a)) as [Hlt|Hge].
      * apply list_lookup_insert_eq. by rewrite np_setitem_length.
      * apply lookup_ge_None. rewrite length_insert, np_setitem_length. lia.
    + rewrite list_lookup_insert_ne by done. rewrite IH.
      destruct (decide (j ∈ ps)) as [Hin|Hnin];
        destruct (decide (j ∈ p :: ps)) as [Hin'|Hnin']; try done.
      * exfalso. apply Hnin'. by right.
      * apply elem_of_cons in Hin' as [?|?]; [congruence|done].
Qed.

(** Assigning at the positions of a label overwrites exactly the entries
    under that label. *)
Lemma np_setitem_positions (cols : list string) (a : list F) stock v :
  length a = length cols →
  np_setitem a (positions stock cols) v
  = zip_with (λ c w, if decide (c = stock) then v else w) cols a.
Proof.
  intros Hlen. apply list_eq. intros j.
  rewrite np_setitem_lookup, lookup_zip_with.
  destruct (cols !! j) as [c|] eqn:Hc; simpl.
  - assert (Hj : j < length a) by (rewrite Hlen; by eapply lookup_lt_Some).
    destruct (lookup_lt_is_Some_2 a j Hj) as [w Hw]. rewrite Hw. simpl.
    destruct (decide (j ∈ positions stock cols)) as [Hin|Hnin];
      destruct (decide (c = stock)) as [->|Hne];
      destruct (decide (j < length a)); try done.
    + apply elem_of_positions in Hin. congruence.
    + exfalso. apply Hnin. by apply elem_of_positions.
  - destruct (decide (j ∈ positions stock cols)) as [Hin|Hnin].
    + apply elem_of_positions in Hin. congruence.
    + apply lookup_ge_None. rewrite Hlen. by apply lookup_ge_None.
Qed.

End SetitemFacts.

(** ** EWP_inner *)

Section EWPFacts.
Context {F : Type} `{Num F}.

(** What the loop leaves in [weight]: the equal share under the labels it
    went through, the old entry elsewhere. *)
Lemma EWP_loop_spec (cols : list string) (n : nat) (weight : list F)
    (stocks : list string) :
  n ≠ 0 → Forall (λ s, s ∈ cols) stocks → length weight = length cols →
  EWP_loop cols n weight stocks
  = Ok (zip_with
          (λ c w, if decide (c ∈ stocks)
                  then (of_Z 1 / of_Z (Z.of_nat n))%F else w)
          cols weight).
Proof.
  intros Hn. revert weight.
  induction stocks as [|stock rest IH]; intros weight Hin Hlen.
  - cbn [EWP_loop]. f_equal. symmetry. apply list_eq. intros j.
    rewrite lookup_zip_with.
    destruct (cols !! j) as [c|] eqn:Hc; simpl.
    + destruct (weight !! j) as [w|] eqn:Hw; simpl; [|done].
      destruct (decide (c ∈ [])) as [Hc'|]; [by apply elem_of_nil in Hc'|done].
    + symmetry. apply lookup_ge_None. rewrite Hlen. by apply lookup_ge_None.
  - apply Forall_cons in Hin as [Hstock Hrest]. cbn [EWP_loop].
    unfold py_int_truediv.
    destruct (decide (Z.of_nat n = 0%Z)) as [?|_]; [lia|]. cbn [mbind result_bind].
    unfold get_loc.
    destruct (positions stock cols) as [|p ps] eqn:Hps.
    { by apply positions_nonempty in Hstock. }
    cbn [mbind result_bind]. rewrite <- Hps, np_setitem_positions by done.
    rewrite IH; [|done|by rewrite length_zip_with, Hlen, Nat.min_id].
    f_equal. apply list_eq. intros j. rewrite !lookup_zip_with.
    destruct (cols !! j) as [c|] eqn:Hc; simpl; [|done].
    destruct (weight !! j) as [w|] eqn:Hw; simpl; [|done].
    f_equal.
    destruct (decide (c ∈ rest)) as [Hin|Hnin];
      destruct (decide (c ∈ stock :: rest)) as [Hin'|Hnin'];
      destruct (decide (c = stock)) as [Heq|Hne]; try done;
      try (exfalso; apply Hnin'; subst; first [left | by right]);
      try (apply elem_of_cons in Hin' as [?|?]; done).
Qed.

Lemma zip_with_replicate_r {A B C} (f : A → B → C) (l : list A) (b : B) :
  zip_with f l (replicate (length l) b) = (λ a, f a b) <$> l.
Proof. induction l as [|a l IH]; simpl; [done|]. by rewrite IH. Qed.

(** The value of [EWP_inner] on a non-empty selection among the columns. *)
Lemma EWP_inner_selected (returns : DataFrame F) (selected_stocks : list string) :
  selected_stocks ≠ [] →
  Forall (λ s, s ∈ columns returns) selected_stocks →
  EWP_inner returns selected_stocks
  = Ok ((λ c, if decide (c ∈ selected_stocks)
              then (of_Z 1 / of_Z (Z.of_nat (length selected_stocks)))%F
              else of_Z 0)
          <$> columns returns).
Proof.
  intros Hne Hin. unfold EWP_inner, np_zeros.
  rewrite EWP_loop_spec.
  - by rewrite zip_with_replicate_r.
  - by destruct selected_stocks.
  - done.
  - by rewrite length_replicate.
Qed.

(** C6. For a non-empty selection of [N] instruments, all of them columns of
    the return matrix, [EWP_inner] gives the weight [1/N] to each column that
    is selected and 0 to each column that is not.  ([N] is the length of the
    list of selected instruments, which the program builds from a set.) *)
Theorem EWP_inner_equal_weights (returns : DataFrame F)
    (selected_stocks : list string) :
  selected_stocks ≠ [] →
  Forall (λ s, s ∈ columns returns) selected_stocks →
  EWP_inner returns selected_stocks
  = Ok ((λ c, if decide (c ∈ selected_stocks)
              then (of_Z 1 / of_Z (Z.of_nat (length selected_stocks)))%F
              else of_Z 0)
          <$> columns returns).
Proof. apply EWP_inner_selected. Qed.

End EWPFacts.

(** C6 at the example: A and B selected among the columns A and B. *)
Lemma EWP_inner_equal_weights_example :
  let selected := ["B"; "A"]%string in
  (selected ≠ []
   ∧ Forall (λ s, s ∈ columns (exact_frame Sample.returns_AB)) selected)
  ∧ EWP_inner (exact_frame Sample.returns_AB) selected
    = Ok [Exact.frac 1 2; Exact.frac 1 2].
Proof.
  intros selected.
  assert (H1 : selected ≠ []) by done.
  assert (H3 : Forall (λ s, s ∈ columns (exact_frame Sample.returns_AB)) selected)
    by compute_done.
  split; [done|].
  rewrite (EWP_inner_equal_weights _ selected H1 H3). compute_done.
Defined.

(** ** Selecting columns *)

Section ColumnFacts.
Context {V : Type}.
Implicit Types (data : list (string * V)) (l : string).

Lemma dict_get_is_Some data l : l ∈ data.*1 → is_Some (dict_get data l).
Proof.
  induction data as [|[k v] data IH]; simpl.
  - by intros ?%elem_of_nil.
  - intros Hin. destruct (decide (l = k)); [by eexists|].
    apply IH. apply elem_of_cons in Hin as [?|?]; done.
Qed.

Lemma filter_label_None data l :
  l ∉ data.*1 → filter (λ c : string * V, c.1 = l) data = [].
Proof.
  induction data as [|[k v] data IH]; simpl; [done|].
  intros [Hne Hnin]%not_elem_of_cons.
  rewrite filter_cons_False by (simpl; congruence). by apply IH.
Qed.

(** Under distinct labels, selecting a label picks the one column that
    carries it. *)
Lemma filter_label_NoDup data l v :
  NoDup data.*1 → dict_get data l = Some v →
  filter (λ c : string * V, c.1 = l) data = [(l, v)].
Proof.
  induction data as [|[k x] data IH]; simpl; [done|].
  intros [Hk Hnd]%NoDup_cons Hget.
  destruct (decide (l = k)) as [->|Hne].
  - inversion Hget; subst. rewrite filter_cons_True by done.
    by rewrite filter_label_None.
  - rewrite filter_cons_False by (simpl; congruence). by apply IH.
Qed.

End ColumnFacts.

Lemma dict_get_fmap {V W} (f : V → W) (data : list (string * V)) l :
  dict_get ((λ c : string * V, (c.1, f c.2)) <$> data) l = f <$> dict_get data l.
Proof.
  induction data as [|[k v] data IH]; simpl; [done|].
  destruct (decide (l = k)); [done|]. apply IH.
Qed.

(** Selecting columns, all present, of a frame with distinct labels. *)
Lemma df_getitem_data_NoDup {F} (data : list (string * list F))
    (selected : list string) :
  NoDup data.*1 → Forall (λ s, s ∈ data.*1) selected →
  df_getitem_data data selected
  = Ok ((λ s, (s, default [] (dict_get data s))) <$> selected).
Proof.
  intros Hnd. induction selected as [|s selected IH]; intros Hin; [done|].
  apply Forall_cons in Hin as [Hs Hin].
  destruct (dict_get_is_Some data s Hs) as [vs Hvs].
  cbn [df_getitem_data].
  rewrite (filter_label_NoDup _ s vs) by done.
  rewrite IH by done. simpl. by rewrite Hvs.
Qed.

Lemma columns_exact_frame (returns : DataFrame Qc) :
  columns (exact_frame returns) = columns returns.
Proof.
  unfold columns, exact_frame. simpl.
  rewrite <- list_fmap_compose. by apply list_fmap_ext.
Qed.

(** ** RWP *)

Lemma Qsum_div (c : Qc) (qs : list Qc) :
  Qsum ((λ q, q / c)%Qc <$> qs) = (Qsum qs / c)%Qc.
Proof. unfold Qcdiv. apply Qsum_scale. Qed.

Lemma exact_div_Fin (p q : Qc) :
  q ≠ 0%Qc → (Exact.Fin p / Exact.Fin q)%F = Exact.Fin (p / q).
Proof.
  intros Hq. simpl. unfold Exact.div.
  destruct (bool_decide_reflect (q = 0%Qc)); done.
Qed.

(** The value of [RWP_inner], in any arithmetic: each selected instrument
    with the sum of its column over the sum of those sums. *)
Lemma RWP_inner_quotients {F} `{Num F} (returns : DataFrame F)
    (selected_stocks : list string) :
  let column s := default [] (dict_get (df_data returns) s) in
  NoDup (columns returns) →
  Forall (λ s, s ∈ columns returns) selected_stocks →
  RWP_inner returns selected_stocks
  = Ok ((λ s, (s, (nansum (column s)
                   / nansum ((λ s, nansum (column s)) <$> selected_stocks))%F))
          <$> selected_stocks).
Proof.
  intros column Hnd Hin. unfold RWP_inner, df_getitem.
  rewrite df_getitem_data_NoDup by done. cbn [mbind result_bind]. f_equal.
  unfold df_sum, series_div, values. cbn [df_data].
  rewrite <- !list_fmap_compose. done.
Qed.

Lemma dict_get_exact_frame (returns : DataFrame Qc) (s : string) :
  default [] (dict_get (df_data (exact_frame returns)) s)
  = Exact.Fin <$> default [] (dict_get (df_data returns) s).
Proof.
  unfold exact_frame. cbn [df_data].
  rewrite (dict_get_fmap (fmap Exact.Fin)). by destruct (dict_get _ s).
Qed.

(** The value of [RWP_inner] on rationals: each selected instrument with its
    summed returns over the grand total. *)
Lemma RWP_inner_exact (returns : DataFrame Qc) (selected_stocks : list string) :
  NoDup (columns returns) →
  Forall (λ s, s ∈ columns returns) selected_stocks →
  grand_total returns selected_stocks ≠ 0%Qc →
  RWP_inner (exact_frame returns) selected_stocks
  = Ok (exact_series
          ((λ s, (s, (column_sum returns s / grand_total returns selected_stocks)%Qc))
             <$> selected_stocks)).
Proof.
  intros Hnd Hin Htotal.
  rewrite RWP_inner_quotients by (by rewrite columns_exact_frame).
  f_equal. unfold exact_series. rewrite <- list_fmap_compose.
  assert (Hden : nansum ((λ s, nansum (default []
                    (dict_get (df_data (exact_frame returns)) s))) <$> selected_stocks)
          = Exact.Fin (grand_total returns selected_stocks)).
  { unfold grand_total. rewrite <- nansum_Fin, <- list_fmap_compose.
    f_equal. apply list_fmap_ext. intros i s _. cbv [compose].
    rewrite dict_get_exact_frame. apply nansum_Fin. }
  rewrite Hden. apply list_fmap_ext. intros i s _. cbv [compose]. cbn [fst snd].
  rewrite dict_get_exact_frame, nansum_Fin. f_equal. by apply exact_div_Fin.
Qed.

Lemma values_exact_series {K} (s : Series K Qc) :
  values (exact_series s) = Exact.Fin <$> values s.
Proof.
  unfold values, exact_series. rewrite <- !list_fmap_compose. done.
Qed.

Lemma return_weights_sum (returns : DataFrame Qc) (selected_stocks : list string) :
  grand_total returns selected_stocks ≠ 0%Qc →
  Qsum (values ((λ s, (s, (column_sum returns s
                            / grand_total returns selected_stocks)%Qc))
                  <$> selected_stocks)) = 1%Qc.
Proof.
  intros Htotal. set (T := grand_total returns selected_stocks) in *.
  unfold values. rewrite <- list_fmap_compose.
  change (snd ∘ _) with ((λ q, q / T)%Qc ∘ column_sum returns).
  rewrite list_fmap_compose, Qsum_div. fold (grand_total returns selected_stocks).
  fold T. by field.
Qed.

(** The return weights on the day of the near cancellation, in binary64:
    the grand total is [3 * 2^-60] and the three quotients are rounded. *)
Lemma RWP_inner_cancelling64 :
  nansum ((λ s, nansum (default [] (dict_get (df_data Sample.cancelling_returns64) s)))
            <$> ["A"; "B"; "C"]%string)
  = Binary64.dyadic 3 (-60)
  ∧ RWP_inner Sample.cancelling_returns64 ["A"; "B"; "C"]%string
    = Ok [("A"%string, Binary64.dyadic 6004799503160661 (-1));
          ("B"%string, Binary64.dyadic (-6004799503160660) (-1));
          ("C"%string, Binary64.dyadic 6004799503160661 (-53))].
Proof. split; by vm_compute. Qed.

(** C5, as stated, fails in the arithmetic of the program: on one day of
    returns [9007199254740991 * 2^-60] for A, [-9007199254740990 * 2^-60]
    for B and [2 * 2^-60] for C the grand total is [3 * 2^-60], not zero,
    and the weights are the rounded quotients 3002399751580330.5,
    -3002399751580330 and about 0.667.  They add up to about 1.1667, as
    numbers and when added in binary64, not to 1. *)
Lemma RWP_inner_weights_sum_not_one :
  let selected := ["A"; "B"; "C"]%string in
  ∃ grand_total weights sum,
    nansum ((λ s, nansum (default [] (dict_get (df_data Sample.cancelling_returns64) s)))
              <$> selected) = grand_total
    ∧ float_value grand_total = Some (qc 3 (2 ^ 60))
    ∧ RWP_inner Sample.cancelling_returns64 selected = Ok weights
    ∧ Qsum <$> float_values (values weights) = Some sum
    ∧ (1 + qc 1 10 < sum)%Qc
    ∧ ¬ near_one tolerance sum
    ∧ float_value (np_sum (values weights)) = Some (qc 2627099782632789 (2 ^ 51))
    ∧ np_sum (values weights) ≠ Binary64.of_Z 1.
Proof.
  intros selected. destruct RWP_inner_cancelling64 as [Htotal Hw].
  eexists _, _, (qc 10508399130531157 (2 ^ 53)).
  split; [exact Htotal|]. split; [compute_done|]. split; [exact Hw|].
  split; [compute_done|]. split; [compute_done|]. split; [|split].
  - intros Hnear. vm_compute in Hnear. destruct Hnear as [Hle _]. by apply Hle.
  - compute_done.
  - by vm_compute.
Qed.

(** C5, amended.  In any arithmetic, binary64 included, [RWP_inner] gives
    each selected instrument the sum of its daily returns divided by the
    grand total of those sums, as the arithmetic computes them.  Without
    rounding, when the grand total is not zero, the weights sum to 1 and any
    two of them are in the ratio of the summed returns of their
    instruments. *)
Theorem RWP_inner_return_weights (selected_stocks : list string) :
  (∀ (F : Type) (HF : Num F) (returns : DataFrame F),
     let column s := default [] (dict_get (df_data returns) s) in
     NoDup (columns returns) →
     Forall (λ s, s ∈ columns returns) selected_stocks →
     RWP_inner returns selected_stocks
     = Ok ((λ s, (s, (nansum (column s)
                      / nansum ((λ s, nansum (column s)) <$> selected_stocks))%F))
             <$> selected_stocks))
  ∧ (∀ returns : DataFrame Qc,
       NoDup (columns returns) →
       Forall (λ s, s ∈ columns returns) selected_stocks →
       grand_total returns selected_stocks ≠ 0%Qc →
       ∃ weights : Series string Qc,
         RWP_inner (exact_frame returns) selected_stocks = Ok (exact_series weights)
         ∧ weights = (λ s, (s, (column_sum returns s
                                 / grand_total returns selected_stocks)%Qc))
                       <$> selected_stocks
         ∧ py_sum (values (exact_series weights)) = Exact.Fin 1%Qc
         ∧ Qsum (values weights) = 1%Qc
         ∧ ∀ i j si sj wi wj,
             weights !! i = Some (si, wi) → weights !! j = Some (sj, wj) →
             (wi * column_sum returns sj = wj * column_sum returns si)%Qc).
Proof.
  split.
  - intros F HF returns column Hnd Hin. by apply RWP_inner_quotients.
  - intros returns Hnd Hin Htotal. eexists. split; [by apply RWP_inner_exact|].
    split; [done|].
    split; [|split; [by apply return_weights_sum|]].
    + by rewrite values_exact_series, py_sum_Fin, return_weights_sum.
    + intros i j si sj wi wj Hi Hj.
      apply list_lookup_fmap_Some in Hi as (s1 & [= -> ->] & _).
      apply list_lookup_fmap_Some in Hj as (s2 & [= -> ->] & _).
      by field.
Qed.

(** C5 at the example: A sums to 3/64 and B to -1/64, without rounding and
    in binary64, where these quotients are exact. *)
Lemma RWP_inner_return_weights_example :
  let selected := ["A"; "B"]%string in
  (NoDup (columns Sample.returns_AB)
   ∧ Forall (λ s, s ∈ columns Sample.returns_AB) selected
   ∧ grand_total Sample.returns_AB selected ≠ 0%Qc
   ∧ NoDup (columns Sample.returns_AB64)
   ∧ Forall (λ s, s ∈ columns Sample.returns_AB64) selected)
  ∧ RWP_inner (exact_frame Sample.returns_AB) selected
    = Ok [("A"%string, Exact.frac 3 2); ("B"%string, Exact.frac (-1) 2)]
  ∧ RWP_inner Sample.returns_AB64 selected
    = Ok [("A"%string, Binary64.dyadic 3 (-1)); ("B"%string, Binary64.dyadic (-1) (-1))].
Proof.
  intros selected.
  assert (H1 : NoDup (columns Sample.returns_AB)) by compute_done.
  assert (H2 : Forall (λ s, s ∈ columns Sample.returns_AB) selected)
    by compute_done.
  assert (H3 : grand_total Sample.returns_AB selected ≠ 0%Qc) by compute_done.
  assert (H4 : NoDup (columns Sample.returns_AB64)) by compute_done.
  assert (H5 : Forall (λ s, s ∈ columns Sample.returns_AB64) selected)
    by compute_done.
  split; [done|]. split.
  - destruct (proj2 (RWP_inner_return_weights selected) Sample.returns_AB H1 H2 H3)
      as (weights & -> & -> & _).
    compute_done.
  - rewrite (proj1 (RWP_inner_return_weights selected) Binary64.t _
               Sample.returns_AB64 H4 H5).
    by vm_compute.
Defined.

(** ** Counts and bounds in the rationals *)

Lemma Qnat_S (n : nat) : Qnat (S n) = (1 + Qnat n)%Qc.
Proof.
  apply Qc_is_canon. unfold Qnat, Qcplus, Q2Qc. cbn [this].
  rewrite !Qred_correct, Nat2Z.inj_succ.
  unfold Qeq. cbn [Qnum Qden Qplus inject_Z]. lia.
Qed.

Lemma Qnat_pos (n : nat) : n ≠ 0 → (0 < Qnat n)%Qc.
Proof.
  intros Hn. unfold Qnat, Qclt, Q2Qc. cbn [this].
  rewrite !Qred_correct. unfold Qlt. cbn [Qnum Qden inject_Z]. lia.
Qed.





Lemma Qsum_indicator (P : string → Prop) `{∀ c, Decision (P c)}
    (v : Qc) (cols : list string) :
  Qsum ((λ c, if decide (P c) then v else 0%Qc) <$> cols)
  = (Qnat (length (filter P cols)) * v)%Qc.
Proof.
  induction cols as [|c cols IH]; csimpl.
  - change (0 = 0 * v)%Qc. ring.
  - rewrite filter_cons. change (Qsum (?x :: ?l)) with (x + Qsum l)%Qc.
    rewrite IH. destruct (decide (P c)); simpl; [rewrite Qnat_S|]; ring.
Qed.


(** ** The equal weights in binary64 *)





(** ** The weights of the most-diversified portfolio *)



(** The program does not ask the solver whether it has converged.  Were
    the solver to give back its starting point, the weights of two columns
    would be 0.01 each. *)
Lemma calculate_MDP_weights_unchecked :
  ∃ w, float_values (calculate_MDP_weights start Sample.returns_AB64) = Some w
       ∧ Forall (λ q, qc 1 101 < q ∧ q < qc 1 99)%Qc w
       ∧ length w = 2.
Proof. eexists. split; [by vm_compute|]. split; [compute_done|done]. Qed.

(** ** The weights of the strategies *)





(** ** Alignment of the returns on the dates of the benchmark *)

Section IndexerFacts.
Context {A : Type} `{EqDecision A}.
Implicit Types (x : A) (idx labels : list A).

(** In an index without repeated labels a label has one position. *)
Lemma positions_NoDup x idx :
  NoDup idx → x ∈ idx → ∃ i, positions x idx = [i] ∧ idx !! i = Some x.
Proof.
  intros Hnd Hx.
  assert (Hps : NoDup (positions x idx))
    by (unfold positions; apply NoDup_filter, NoDup_seq).
  destruct (positions x idx) as [|p ps] eqn:Heq.
  { by apply positions_nonempty in Hx. }
  assert (Hp : idx !! p = Some x).
  { apply elem_of_positions. rewrite Heq. left. }
  exists p. split; [|done]. f_equal.
  destruct ps as [|q ps]; [done|]. exfalso.
  assert (Hq : idx !! q = Some x).
  { apply elem_of_positions. rewrite Heq. right. left. }
  assert (p = q) by exact (NoDup_lookup idx p q x Hnd Hp Hq).
  subst q. apply NoDup_cons in Hps as [Hnin _]. apply Hnin. left.
Qed.

Lemma take_positions_app {B} (ps qs : list nat) (xs : list B) :
  take_positions (ps ++ qs) xs = take_positions ps xs ++ take_positions qs xs.
Proof. unfold take_positions. apply omap_app. Qed.


End IndexerFacts.




(** ** Aligned values *)

Section EntryFacts.
Context {K F : Type} `{EqDecision K}.
Implicit Types (s : Series K F) (k : K) (labels : list K).

Lemma at_label_fresh s k : k ∉ index s → at_label s k = None.
Proof.
  induction s as [|[k' v] s IH]; simpl; [done|].
  intros [Hne Hnin]%not_elem_of_cons.
  destruct (decide (k = k')); [done|]. by apply IH.
Qed.

Lemma at_label_present s k :
  k ∈ index s → ∃ v, at_label s k = Some v ∧ (k, v) ∈ s.
Proof.
  induction s as [|[k' v] s IH]; simpl.
  - by intros ?%elem_of_nil.
  - intros Hin. destruct (decide (k = k')) as [->|Hne].
    + exists v. split; [done|]. left.
    + apply elem_of_cons in Hin as [?|Hin]; [done|].
      destruct (IH Hin) as (w & Hw & Hmem). exists w. split; [done|]. by right.
Qed.

Lemma at_label_lookup s i k v :
  NoDup (index s) → s !! i = Some (k, v) → at_label s k = Some v.
Proof.
  revert i. induction s as [|[k' v'] s IH]; intros i Hnd Hi; [done|].
  apply NoDup_cons in Hnd as [Hk' Hnd]. simpl.
  destruct i as [|i]; simpl in Hi.
  - inversion Hi; subst. by rewrite decide_True.
  - rewrite decide_False; [by eapply IH|].
    intros ->. apply Hk'. apply list_elem_of_fmap.
    exists (k', v). split; [done|]. by eapply list_elem_of_lookup_2.
Qed.

Lemma at_label_cons_ne s k k' v : k ≠ k' → at_label ((k', v) :: s) k = at_label s k.
Proof. intros Hne. simpl. by rewrite decide_False. Qed.

Lemma at_label_cons_eq s k v : at_label ((k, v) :: s) k = Some v.
Proof. simpl. by rewrite decide_True. Qed.

Lemma entries_at_cons s l labels :
  entries_at s (l :: labels)
  = match at_label s l with
    | Some v => (l, v) :: entries_at s labels
    | None => entries_at s labels
    end.
Proof. unfold entries_at. cbn [omap list_omap]. by destruct (at_label s l). Qed.

Lemma entries_at_cons_fresh s k v labels :
  k ∉ labels → entries_at ((k, v) :: s) labels = entries_at s labels.
Proof.
  induction labels as [|l labels IH]; [done|].
  intros [Hne Hnin]%not_elem_of_cons.
  rewrite !entries_at_cons, at_label_cons_ne by done. by rewrite IH.
Qed.

(** A series with distinct labels is its entries at its own labels. *)
Lemma entries_at_index s : NoDup (index s) → entries_at s (index s) = s.
Proof.
  induction s as [|[k v] s IH]; [done|].
  intros [Hk Hnd]%NoDup_cons.
  change (index ((k, v) :: s)) with (k :: index s).
  rewrite entries_at_cons, at_label_cons_eq, entries_at_cons_fresh by done.
  by rewrite IH.
Qed.

Lemma index_entries_at s labels :
  index (entries_at s labels) = filter (λ k, k ∈ index s) labels.
Proof.
  induction labels as [|l labels IH]; [done|].
  rewrite entries_at_cons. destruct (decide (l ∈ index s)) as [Hin|Hnin].
  - destruct (at_label_present s l Hin) as (v & -> & _).
    rewrite filter_cons_True by done.
    change (index ((l, v) :: ?x)) with (l :: index x). by rewrite IH.
  - rewrite at_label_fresh by done. rewrite filter_cons_False by done. apply IH.
Qed.

(** [s.loc[labels]] on a series with distinct labels, for labels it has. *)
Lemma series_loc_NoDup `{Num F} s labels :
  NoDup (index s) → Forall (λ l, l ∈ index s) labels →
  series_loc s labels = Ok (entries_at s labels).
Proof.
  intros Hnd. unfold series_loc.
  induction labels as [|l labels IH]; intros Hin; [done|].
  apply Forall_cons in Hin as [Hl Hin]. specialize (IH Hin).
  destruct (positions_NoDup l (index s) Hnd Hl) as (i & Hi & Hlook).
  cbn [get_indexer]. rewrite Hi.
  destruct (get_indexer (index s) labels) as [ps|e]; [|done].
  cbn [mbind result_bind] in *. injection IH as IH. f_equal.
  change (i :: ps) with ([i] ++ ps). rewrite take_positions_app, IH.
  unfold index in Hlook. rewrite list_lookup_fmap in Hlook.
  apply fmap_Some in Hlook as ([k v] & Hs & ->). change ((k, v).1) with k in *.
  rewrite entries_at_cons, (at_label_lookup s i k v) by done.
  unfold take_positions. cbn [omap list_omap]. by rewrite Hs.
Qed.

End EntryFacts.

Section ConformFacts.
Context {F : Type} `{Num F}.
Implicit Types (market : Series date F).

Lemma dropna_id market :
  Forall (λ p : date * F, isnan p.2 = false) market → dropna market = market.
Proof. apply filter_Forall_id. Qed.

(** Conforming a series without missing values to a list of dates and
    dropping the missing values leaves its entries at those dates. *)
Lemma dropna_conform market (target : list date) :
  Forall (λ p : date * F, isnan p.2 = false) market →
  dropna ((λ k, (k, default nan (at_label market k))) <$> target)
  = entries_at market target.
Proof.
  intros Hvals. unfold dropna.
  induction target as [|d target IH]; [done|].
  rewrite fmap_cons, entries_at_cons.
  destruct (decide (d ∈ index market)) as [Hin|Hnin].
  - destruct (at_label_present market d Hin) as (v & Hv & Hmem).
    rewrite Forall_forall in Hvals. specialize (Hvals _ Hmem). cbn [snd] in Hvals.
    rewrite (filter_cons_True (λ p : date * F, isnan p.2 = false))
      by (simpl; by rewrite Hv).
    rewrite Hv. f_equal. exact IH.
  - rewrite (filter_cons_False (λ p : date * F, isnan p.2 = false)).
    + rewrite at_label_fresh by done. apply IH.
    + simpl. rewrite at_label_fresh by done. simpl. by rewrite isnan_nan.
Qed.

Lemma reindex_dropna market (target : list date) :
  NoDup (index market) →
  Forall (λ p : date * F, isnan p.2 = false) market →
  ∃ conformed,
    reindex market target = Ok conformed
    ∧ dropna conformed = entries_at market target.
Proof.
  intros Hnd Hvals. unfold reindex.
  destruct (decide (index market = target)) as [<-|Hne].
  - exists market. split; [done|].
    rewrite dropna_id by done. by rewrite entries_at_index.
  - destruct (decide (NoDup (index market))); [|done].
    eexists. split; [done|]. by apply dropna_conform.
Qed.

End ConformFacts.

Section AlignFacts.
Context {F : Type} `{Num F}.
Implicit Types (market : Series date F) (daily_returns : DataFrame F).


End AlignFacts.



(** ** The Sharpe ratio *)

Lemma length_omap_is_Some {A B} (f : A → option B) (l : list A) :
  Forall (λ x, is_Some (f x)) l → length (omap f l) = length l.
Proof.
  induction 1 as [|x l [y Hy] _ IH]; [done|].
  cbn [omap list_omap]. rewrite Hy. simpl. by rewrite IH.
Qed.

(** The rows of the matrix of a well-formed frame are as long as the frame
    has columns. *)
Lemma df_values_rows {F} (df : DataFrame F) :
  df_wf df → Forall (λ row, length row = length (columns df)) (df_values df).
Proof.
  intros Hwf. unfold df_values. apply Forall_fmap, Forall_forall.
  intros t Ht%elem_of_seq. simpl.
  unfold columns. rewrite length_fmap. apply length_omap_is_Some.
  unfold df_wf in Hwf. eapply Forall_impl; [exact Hwf|].
  intros c Hc. simpl in *. apply lookup_lt_is_Some. lia.
Qed.

Lemma np_dot_Ok {F} `{Num F} (a : list (list F)) (n : nat) (w : list F) :
  n = length w → Forall (λ row, length row = n) a →
  np_dot a n w = Ok ((λ row, inner row w) <$> a).
Proof.
  intros Hn Ha. unfold np_dot. by rewrite bool_decide_eq_true_2.
Qed.

(** The quotient by a zero, in binary64: not-a-number when the dividend is a
    zero or not-a-number, an infinity otherwise. *)
Lemma binary64_div_zero (x y : Binary64.t) :
  Binary64.is_zero y = true →
  Binary64.is_nan (Binary64.div x y) = Binary64.is_zero x || Binary64.is_nan x
  ∧ Binary64.is_inf (Binary64.div x y)
    = negb (Binary64.is_zero x || Binary64.is_nan x).
Proof.
  destruct y as [sy| | |]; try discriminate. intros _.
  by destruct x as [sx|sx| |sx mx ex].
Qed.

(** C2, as stated, fails: on three days of a constant return of one half
    the standard deviation is zero and the Sharpe ratio comes out as plus
    infinity; nothing is raised.  The same happens in
    [calculate_portfolio_statistics] on prices that double every day. *)
Lemma sharpe_ratio_of_constant_returns_is_infinite :
  portfolio_performance Sample.constant_returns64 [Binary64.of_Z 1]
    = Ok ([Binary64.dyadic 1 (-1); Binary64.dyadic 1 (-1); Binary64.dyadic 1 (-1)],
          Binary64.dyadic 1 (-1), S754_zero false, S754_infinity false)
  ∧ portfolio_performance Sample.constant_returns64 [Binary64.of_Z 1]
    ≠ Raise ZeroDivisionError
  ∧ calculate_portfolio_statistics Sample.doubling_prices64
      Sample.market_prices64 Sample.purchase64
    = Ok (Binary64.of_Z 1, S754_zero false, S754_infinity false, S754_zero false).
Proof. split; [|split]; by vm_compute. Qed.

(** C2, amended.  The Sharpe ratio is the binary64 quotient of the mean by
    the standard deviation of the daily returns of the portfolio, and
    computing it raises nothing: when the standard deviation is zero the
    ratio returned is not-a-number if the mean is zero or not-a-number, and
    an infinity otherwise. *)
Theorem sharpe_ratio_zero_risk (daily_returns : DataFrame Binary64.t)
    (portfolio_weights : list Binary64.t) :
  df_wf daily_returns →
  length portfolio_weights = length (columns daily_returns) →
  ∃ returns sharpe_ratio,
    np_dot (df_values daily_returns) (length (columns daily_returns))
      portfolio_weights = Ok returns
    ∧ portfolio_performance daily_returns portfolio_weights
      = Ok (returns, np_mean returns, np_std returns, sharpe_ratio)
    ∧ sharpe_ratio = (np_mean returns / np_std returns)%F
    ∧ (Binary64.is_zero (np_std returns) = true →
       Binary64.is_nan sharpe_ratio
         = Binary64.is_zero (np_mean returns) || Binary64.is_nan (np_mean returns)
       ∧ Binary64.is_inf sharpe_ratio
         = negb (Binary64.is_zero (np_mean returns)
                 || Binary64.is_nan (np_mean returns))).
Proof.
  intros Hwf Hlen. eexists _, _. split; [|split; [|split; [reflexivity|]]].
  - apply np_dot_Ok; [done|]. by apply df_values_rows.
  - unfold portfolio_performance.
    rewrite np_dot_Ok; [done|done|]. by apply df_values_rows.
  - apply binary64_div_zero.
Qed.

(** C2 at the example of the constant return. *)
Lemma sharpe_ratio_zero_risk_example :
  (df_wf Sample.constant_returns64
   ∧ length [Binary64.of_Z 1] = length (columns Sample.constant_returns64))
  ∧ ∃ returns,
      portfolio_performance Sample.constant_returns64 [Binary64.of_Z 1]
        = Ok (returns, Binary64.dyadic 1 (-1), S754_zero false, S754_infinity false).
Proof.
  assert (H1 : df_wf Sample.constant_returns64) by (repeat constructor).
  assert (H2 : length [Binary64.of_Z 1] = length (columns Sample.constant_returns64))
    by reflexivity.
  split; [done|].
  destruct (sharpe_ratio_zero_risk Sample.constant_returns64 [Binary64.of_Z 1] H1 H2)
    as (returns & sharpe & Hdot & Hperf & -> & _).
  exists returns. rewrite Hperf.
  vm_compute in Hdot. injection Hdot as <-. by vm_compute.
Defined.

(** ** Statistics in the exact arithmetic *)

Lemma Qnat_nonzero (n : nat) : n ≠ 0 → Qnat n ≠ 0%Qc.
Proof.
  intros Hn%Qnat_pos Heq. rewrite Heq in Hn. by apply Qclt_not_eq in Hn.
Qed.

Lemma exact_of_nat (n : nat) : of_Z (Z.of_nat n) = Exact.Fin (Qnat n).
Proof. done. Qed.

Lemma np_mean_Fin (xs : list Qc) :
  xs ≠ [] → np_mean (Exact.Fin <$> xs) = Exact.Fin (Qmean xs).
Proof.
  intros Hne. unfold np_mean, Qmean.
  rewrite np_sum_Fin, length_fmap, exact_of_nat.
  apply exact_div_Fin, Qnat_nonzero. by destruct xs.
Qed.

Lemma inner_Fin (xs ys : list Qc) :
  inner (Exact.Fin <$> xs) (Exact.Fin <$> ys)
  = Exact.Fin (Qsum (zip_with Qcmult xs ys)).
Proof.
  unfold inner. rewrite <- np_sum_Fin. f_equal.
  revert ys. induction xs as [|x xs IH]; intros [|y ys]; try done.
  csimpl. by rewrite IH.
Qed.

Lemma fmap_sub_Fin (m : Qc) (xs : list Qc) :
  (λ a, (a - Exact.Fin m)%F) <$> (Exact.Fin <$> xs)
  = Exact.Fin <$> ((λ a, a - m)%Qc <$> xs).
Proof. rewrite <- !list_fmap_compose. by apply list_fmap_ext. Qed.

(** [np.cov] on rationals is the covariance normalised by [N - 1]. *)
Lemma np_cov_exact (xs ys : list Qc) :
  length xs = length ys → 2 ≤ length xs →
  np_cov (Exact.Fin <$> xs) (Exact.Fin <$> ys)
  = Ok (Exact.Fin (covariance 1 xs ys)).
Proof.
  intros Hlen HN. unfold np_cov. rewrite !length_fmap.
  destruct (decide (length xs = length ys)); [|done]. f_equal.
  rewrite !np_mean_Fin by (intros ->; simpl in *; lia).
  rewrite !fmap_sub_Fin, inner_Fin.
  replace (Z.max (Z.of_nat (length xs) - 1) 0) with (Z.of_nat (length xs - 1))
    by lia.
  rewrite exact_of_nat. change (of_Z 1) with (Exact.Fin 1%Qc).
  assert (Hq : Qnat (length xs - 1) ≠ 0%Qc) by (apply Qnat_nonzero; lia).
  rewrite exact_div_Fin by done.
  change (Exact.Fin ?a * Exact.Fin ?b)%F with (Exact.Fin (a * b)).
  f_equal. unfold covariance.
  rewrite zip_with_fmap_l, zip_with_fmap_r. by field.
Qed.

(** [Series.var(ddof=0)] on rationals is the variance normalised by [N]. *)
Lemma pd_var_exact (xs : list Qc) :
  xs ≠ [] → pd_var (Exact.Fin <$> xs) = Exact.Fin (variance 0 xs).
Proof.
  intros Hne. unfold pd_var.
  rewrite (filter_Forall_id _ (Exact.Fin <$> xs))
    by (apply Forall_fmap, Forall_forall; done).
  rewrite length_fmap.
  destruct (decide (length xs = 0)) as [Hz|_]; [by destruct xs|].
  rewrite np_sum_Fin, exact_of_nat.
  assert (Hq : Qnat (length xs) ≠ 0%Qc) by (apply Qnat_nonzero; by destruct xs).
  rewrite exact_div_Fin by done. fold (Qmean xs).
  assert (Hsqr : (λ v, ((Exact.Fin (Qmean xs) - v) * (Exact.Fin (Qmean xs) - v))%F)
                   <$> (Exact.Fin <$> xs)
                 = Exact.Fin <$> ((λ x, (x - Qmean xs) * (x - Qmean xs))%Qc <$> xs)).
  { rewrite <- !list_fmap_compose. apply list_fmap_ext. intros i x _. simpl.
    f_equal. ring. }
  rewrite Hsqr, np_sum_Fin, exact_div_Fin by done.
  f_equal. unfold variance, covariance. rewrite Nat.sub_0_r. f_equal. f_equal.
  clear. generalize (Qmean xs). intros m.
  induction xs as [|x xs IH]; [done|]. csimpl. by rewrite IH.
Qed.

(** ** Series of rationals *)

Section ExactSeriesFacts.
Context {K : Type} `{EqDecision K}.
Implicit Types (s : Series K Qc) (labels : list K).

Lemma index_exact_series s : index (exact_series s) = index s.
Proof.
  unfold index, exact_series. rewrite <- list_fmap_compose. by apply list_fmap_ext.
Qed.

Lemma at_label_exact_series s k :
  at_label (exact_series s) k = Exact.Fin <$> at_label s k.
Proof.
  induction s as [|[k' v] s IH]; [done|]. simpl.
  destruct (decide (k = k')); [done|]. apply IH.
Qed.

Lemma entries_at_exact_series s labels :
  entries_at (exact_series s) labels = exact_series (entries_at s labels).
Proof.
  induction labels as [|l labels IH]; [done|].
  rewrite !entries_at_cons, at_label_exact_series.
  destruct (at_label s l); simpl; by rewrite IH.
Qed.

Lemma exact_series_no_nan s :
  Forall (λ p : K * Exact.t, isnan p.2 = false) (exact_series s).
Proof. unfold exact_series. apply Forall_fmap, Forall_forall. done. Qed.

Lemma exact_series_zip (idx : list K) (xs : list Qc) :
  zip idx (Exact.Fin <$> xs) = exact_series (zip idx xs).
Proof.
  unfold exact_series. revert xs.
  induction idx as [|k idx IH]; intros [|x xs]; try done.
  csimpl. by rewrite IH.
Qed.

Lemma entries_at_filter s labels :
  entries_at s labels = entries_at s (filter (λ k, k ∈ index s) labels).
Proof.
  induction labels as [|l labels IH]; [done|].
  rewrite entries_at_cons. destruct (decide (l ∈ index s)) as [Hin|Hnin].
  - rewrite filter_cons_True by done. rewrite entries_at_cons.
    destruct (at_label s l); by rewrite IH.
  - rewrite filter_cons_False by done. by rewrite at_label_fresh.
Qed.

End ExactSeriesFacts.

Lemma values_entries_at (s : Series date Qc) (dates : list date) :
  Forall (λ d, d ∈ index s) dates →
  values (entries_at s dates) = series_on s dates.
Proof.
  induction 1 as [|d dates Hd _ IH]; [done|].
  rewrite entries_at_cons.
  destruct (at_label_present s d Hd) as (v & Hv & _). rewrite Hv.
  unfold series_on. csimpl. rewrite Hv. simpl. f_equal. apply IH.
Qed.

Lemma index_zip_same {A B} (idx : list A) (xs : list B) :
  length xs = length idx → index (zip idx xs) = idx.
Proof.
  intros Hlen. unfold index. rewrite fst_zip_take, Hlen. apply firstn_all.
Qed.

(** ** Beta *)

(** The value of the beta block on rationals: over the dates the
    instrument returns and the benchmark share, the covariance normalised
    by [N - 1] over the variance normalised by [N]. *)
Lemma portfolio_beta_exact (daily_returns : DataFrame Exact.t) (p : list Qc)
    (market : Series date Qc) :
  let dates := filter (λ d, d ∈ index market) (df_index daily_returns) in
  let p' := series_on (zip (df_index daily_returns) p) dates in
  let m' := series_on market dates in
  NoDup (df_index daily_returns) → NoDup (index market) →
  length p = length (df_index daily_returns) →
  2 ≤ length dates → variance 0 m' ≠ 0%Qc →
  portfolio_beta daily_returns (Exact.Fin <$> p) (exact_series market)
  = Ok (Exact.Fin (covariance 1 p' m' / variance 0 m')).
Proof.
  intros dates p' m' Hidx Hm Hlen HN Hvar. unfold portfolio_beta.
  destruct (reindex_dropna (exact_series market) (df_index daily_returns))
    as (conformed & -> & Hdrop).
  { by rewrite index_exact_series. }
  { apply exact_series_no_nan. }
  cbn [mbind result_bind]. rewrite Hdrop. clear Hdrop conformed.
  rewrite entries_at_exact_series, entries_at_filter. fold dates.
  unfold pd_Series. rewrite length_fmap.
  destruct (decide (length p = length (df_index daily_returns))); [|done].
  cbn [mbind result_bind]. rewrite exact_series_zip, index_exact_series.
  assert (Hdates : index (entries_at market dates) = dates).
  { rewrite index_entries_at. apply filter_Forall_id, Forall_forall.
    by intros d [? _]%list_elem_of_filter. }
  rewrite Hdates, series_loc_NoDup.
  - cbn [mbind result_bind].
    rewrite entries_at_exact_series, !values_exact_series.
    rewrite !values_entries_at.
    + fold p' m'.
      assert (Hlen' : length p' = length dates)
        by (unfold p', series_on; by rewrite length_fmap).
      assert (Hlen'' : length m' = length dates)
        by (unfold m', series_on; by rewrite length_fmap).
      rewrite np_cov_exact by lia. cbn [mbind result_bind].
      rewrite pd_var_exact by (intros Heq; rewrite Heq in Hlen''; simpl in *; lia).
      f_equal. by apply exact_div_Fin.
    + rewrite ?index_zip_same by done. apply Forall_forall.
      by intros d [? ?]%list_elem_of_filter.
    + rewrite ?index_zip_same by done. apply Forall_forall.
      by intros d [? ?]%list_elem_of_filter.
  - by rewrite index_exact_series, index_zip_same.
  - rewrite index_exact_series, index_zip_same by done. apply Forall_forall.
    by intros d [_ ?]%list_elem_of_filter.
Qed.

(** C3. The beta is meant to be the covariance of the portfolio and the
    benchmark over the variance of the benchmark, both normalised alike.
    The program divides [np.cov], which normalises by [N - 1], by [np.var],
    which normalises by [N].  With A at the prices 1, 2 and 6 and the
    benchmark at 1, 3 and 15, [calculate_portfolio_statistics] returns the
    beta 1, in binary64 without rounding.  On five days on which A returns
    1/64, ..., 5/64 and the benchmark twice as much, the portfolio all in A
    gets the beta 5/8, in exact arithmetic and in binary64, where the
    covariance over the variance is 1/2 under either normalisation. *)
Theorem portfolio_beta_mixes_normalisations :
  calculate_portfolio_statistics Sample.prices_A64 Sample.benchmark_prices64
    Sample.purchase64
    = Ok (Binary64.dyadic 3 (-1), Binary64.dyadic 1 (-1), Binary64.of_Z 3,
          Binary64.of_Z 1)
  ∧ (pdr ← np_dot (df_values (exact_frame Sample.returns5)) 1 [Exact.of_Z 1];
     portfolio_beta (exact_frame Sample.returns5) pdr (exact_series Sample.benchmark5))
    = Ok (Exact.frac 5 8)
  ∧ (pdr ← np_dot (df_values Sample.returns5_64) 1 [Binary64.of_Z 1];
     portfolio_beta Sample.returns5_64 pdr Sample.benchmark5_64)
    = Ok (Binary64.dyadic 5 (-3))
  ∧ (covariance 0 Sample.rising (values Sample.benchmark5)
     / variance 0 (values Sample.benchmark5) = qc 1 2)%Qc
  ∧ (covariance 1 Sample.rising (values Sample.benchmark5)
     / variance 1 (values Sample.benchmark5) = qc 1 2)%Qc
  ∧ (covariance 1 Sample.rising (values Sample.benchmark5)
     / variance 0 (values Sample.benchmark5) = qc 5 8)%Qc
  ∧ (covariance 0 [qc 1 1; qc 2 1] [qc 2 1; qc 4 1]
     / variance 0 [qc 2 1; qc 4 1] = qc 1 2)%Qc.
Proof. repeat split; compute_done. Qed.

(** C4, as stated, fails: with the benchmark returning twice what the
    instrument returns, the beta of the portfolio all in that instrument is
    1 on the prices 1, 2, 6 against 1, 3, 15, and 5/8 on the five days of
    returns 1/64, ..., 5/64; both are more than 1/2 below 2. *)
Lemma beta_of_doubled_benchmark_is_not_two :
  update_data Sample.prices_A64 Sample.benchmark_prices64
    = Ok (mkDataFrame [2; 3]%Z [("A"%string, [Binary64.of_Z 1; Binary64.of_Z 2])],
          [(2%Z, Binary64.of_Z 2); (3%Z, Binary64.of_Z 4)])
  ∧ (∃ r k s, calculate_portfolio_statistics Sample.prices_A64
               Sample.benchmark_prices64 Sample.purchase64
             = Ok (r, k, s, Binary64.of_Z 1))
  ∧ (pdr ← np_dot (df_values (exact_frame Sample.returns5)) 1 [Exact.of_Z 1];
     portfolio_beta (exact_frame Sample.returns5) pdr (exact_series Sample.benchmark5))
    = Ok (Exact.Fin (qc 5 8))
  ∧ (pdr ← np_dot (df_values Sample.returns5_64) 1 [Binary64.of_Z 1];
     portfolio_beta Sample.returns5_64 pdr Sample.benchmark5_64)
    = Ok (Binary64.dyadic 5 (-3))
  ∧ values (exact_series Sample.benchmark5)
    = (λ q, Exact.Fin (2 * q)) <$> Sample.rising
  ∧ (1 < 2 - qc 1 2)%Qc ∧ (qc 5 8 < 2 - qc 1 2)%Qc.
Proof.
  split; [by vm_compute|].
  split; [eexists _, _, _; by vm_compute|].
  repeat split; compute_done.
Qed.

Lemma Qsum_fmap_mul_l (c : Qc) (f : Qc → Qc) (qs : list Qc) :
  Qsum ((λ q, c * f q)%Qc <$> qs) = (c * Qsum (f <$> qs))%Qc.
Proof.
  induction qs as [|q qs IH]; csimpl.
  - change (0 = c * 0)%Qc. ring.
  - change (Qsum (?x :: ?l)) with (x + Qsum l)%Qc. rewrite IH. ring.
Qed.

Lemma Qmean_double (p : list Qc) :
  Qmean ((λ q, 2 * q)%Qc <$> p) = (2 * Qmean p)%Qc.
Proof.
  unfold Qmean. rewrite length_fmap.
  rewrite (Qsum_fmap_mul_l 2%Qc id), list_fmap_id. unfold Qcdiv. ring.
Qed.

Lemma covariance_doubled (p : list Qc) :
  covariance 1 p ((λ q, 2 * q)%Qc <$> p)
  = (2 * Qsum ((λ x, (x - Qmean p) * (x - Qmean p)) <$> p)
     / Qnat (length p - 1))%Qc.
Proof.
  unfold covariance. rewrite Qmean_double, zip_with_fmap_r, zip_with_diag.
  rewrite <- (Qsum_fmap_mul_l 2%Qc). f_equal. f_equal.
  apply list_fmap_ext. intros i x _. simpl. ring.
Qed.

Lemma variance_doubled (ddof : nat) (p : list Qc) :
  covariance ddof ((λ q, 2 * q)%Qc <$> p) ((λ q, 2 * q)%Qc <$> p)
  = (2 * 2 * Qsum ((λ x, (x - Qmean p) * (x - Qmean p)) <$> p)
     / Qnat (length p - ddof))%Qc.
Proof.
  unfold covariance.
  rewrite Qmean_double, zip_with_diag, length_fmap, <- list_fmap_compose.
  rewrite <- (Qsum_fmap_mul_l (2 * 2)%Qc). f_equal. f_equal.
  apply list_fmap_ext. intros i x _. simpl. ring.
Qed.

Lemma series_on_zip (idx : list date) (xs : list Qc) :
  NoDup idx → length xs = length idx → series_on (zip idx xs) idx = xs.
Proof.
  intros Hnd Hlen.
  rewrite <- (values_entries_at (zip idx xs) idx).
  - rewrite <- (index_zip_same idx xs) at 2 by done.
    rewrite entries_at_index by (by rewrite index_zip_same).
    unfold values. rewrite snd_zip_take, <- Hlen. apply firstn_all.
  - rewrite index_zip_same by done. by apply Forall_forall.
Qed.

(** C4, amended.  When the benchmark returns twice what the portfolio
    returns on each of at least two dates, and not the same on all of them,
    the beta returned is one half of the beta the same computation returns
    for the benchmark itself. *)
Theorem beta_of_doubled_benchmark (daily_returns : DataFrame Exact.t)
    (p : list Qc) :
  let m := (λ q, 2 * q)%Qc <$> p in
  let market := zip (df_index daily_returns) m in
  NoDup (df_index daily_returns) →
  length p = length (df_index daily_returns) →
  2 ≤ length p →
  variance 0 m ≠ 0%Qc →
  ∃ beta beta_self : Qc,
    portfolio_beta daily_returns (Exact.Fin <$> p) (exact_series market)
      = Ok (Exact.Fin beta)
    ∧ portfolio_beta daily_returns (Exact.Fin <$> m) (exact_series market)
      = Ok (Exact.Fin beta_self)
    ∧ beta = (1 / 2 * beta_self)%Qc.
Proof.
  intros m market Hnd Hlen HN Hvar.
  assert (Hlenm : length m = length (df_index daily_returns))
    by (unfold m; by rewrite length_fmap).
  assert (Hidx : index market = df_index daily_returns)
    by (by apply index_zip_same).
  assert (Hdates : filter (λ d, d ∈ index market) (df_index daily_returns)
                   = df_index daily_returns).
  { rewrite Hidx. apply filter_Forall_id. by apply Forall_forall. }
  assert (Hm' : series_on market (df_index daily_returns) = m)
    by (by apply series_on_zip).
  exists (covariance 1 p m / variance 0 m)%Qc,
         (covariance 1 m m / variance 0 m)%Qc.
  split; [|split].
  - rewrite portfolio_beta_exact; rewrite ?Hdates, ?Hm', ?Hidx; try done.
    + by rewrite series_on_zip.
    + lia.
  - rewrite portfolio_beta_exact; rewrite ?Hdates, ?Hm', ?Hidx; try done.
    + by rewrite series_on_zip.
    + lia.
  - unfold m in *. rewrite covariance_doubled, variance_doubled.
    unfold variance in Hvar. rewrite variance_doubled in Hvar.
    assert (Hq : Qnat (length p - 1) ≠ 0%Qc) by (apply Qnat_nonzero; lia).
    unfold variance. rewrite variance_doubled.
    set (S := Qsum _) in *. set (V := (2 * 2 * S / Qnat (length p - 0))%Qc) in *.
    by field.
Qed.

(** C4 at the example: five days, the benchmark at twice the returns of the
    portfolio; the two betas are 5/8 and 5/4. *)
Lemma beta_of_doubled_benchmark_example :
  let daily_returns := exact_frame Sample.returns5 in
  let p := Sample.rising in
  let m := (λ q, 2 * q)%Qc <$> p in
  let market := zip (df_index daily_returns) m in
  (NoDup (df_index daily_returns)
   ∧ length p = length (df_index daily_returns)
   ∧ 2 ≤ length p
   ∧ variance 0 m ≠ 0%Qc)
  ∧ ∃ beta beta_self : Qc,
      portfolio_beta daily_returns (Exact.Fin <$> p) (exact_series market)
        = Ok (Exact.Fin beta)
      ∧ portfolio_beta daily_returns (Exact.Fin <$> m) (exact_series market)
        = Ok (Exact.Fin beta_self)
      ∧ beta = (1 / 2 * beta_self)%Qc.
Proof.
  intros daily_returns p m market.
  assert (H1 : NoDup (df_index daily_returns)) by compute_done.
  assert (H2 : length p = length (df_index daily_returns)) by reflexivity.
  assert (H3 : 2 ≤ length p) by (simpl; lia).
  assert (H4 : variance 0 m ≠ 0%Qc) by compute_done.
  split; [done|].
  exact (beta_of_doubled_benchmark daily_returns p H1 H2 H3 H4).
Defined.

(** Where the weights are labelled in the order of the prices, every
    instrument is mapped to its own weight times the total. *)
Lemma calculate_investments_own_weight {F : Type} `{Num F}
    (transactions : list (transaction F)) (weights current_prices : Series string F) :
  NoDup (index current_prices) →
  index weights = index current_prices →
  ∃ allocation,
    calculate_investments transactions (values weights) current_prices = Ok allocation
    ∧ dict_keys allocation = index current_prices
    ∧ ∀ stock w,
        at_label weights stock = Some w →
        dict_get allocation stock
          = Some (w * py_sum (tx_amount <$> transactions))%F.
Proof.
  intros Hnd Hidx.
  destruct (calculate_investments_allocation transactions (values weights)
              current_prices Hnd) as (allocation & Hok & _ & Hkeys & Hget & _).
  exists allocation. split; [done|]. split.
  - apply Hkeys. unfold values, index in *.
    by rewrite length_fmap, <- (length_fmap fst weights), Hidx, length_fmap.
  - intros stock w Hw.
    assert (Hin : (stock, w) ∈ weights).
    { destruct (at_label_present weights stock) as (v & Hv & Hmem).
      - destruct (decide (stock ∈ index weights)) as [|Hnin]; [done|].
        by rewrite at_label_fresh in Hw.
      - by simplify_eq. }
    apply list_elem_of_lookup in Hin as [i Hi].
    apply (Hget i).
    + rewrite <- Hidx. unfold index. by rewrite list_lookup_fmap, Hi.
    + unfold values. by rewrite list_lookup_fmap, Hi.
Qed.

(** * Further properties *)

(** ** Dictionaries *)

Section DictRoundTrip.
Context {K V : Type} `{EqDecision K}.
Implicit Types (d : dict K V) (k : K) (v : V).

(** Reading after storing. *)
Lemma dict_get_set d k v k' :
  dict_get (dict_set d k v) k' = if decide (k' = k) then Some v else dict_get d k'.
Proof.
  induction d as [|[k0 v0] d IH]; simpl.
  - by destruct (decide (k' = k)).
  - destruct (decide (k = k0)) as [->|Hne]; simpl.
    + by destruct (decide (k' = k0)).
    + destruct (decide (k' = k0)) as [->|Hne']; [|apply IH].
      by destruct (decide (k0 = k)).
Qed.

Lemma dict_keys_set d k v :
  dict_keys (dict_set d k v)
  = if decide (k ∈ dict_keys d) then dict_keys d else dict_keys d ++ [k].
Proof.
  unfold dict_keys. induction d as [|[k0 v0] d IH].
  - destruct (decide (k ∈ ([] : dict K V).*1)) as [Hin|_]; [|done].
    by apply elem_of_nil in Hin.
  - cbn [dict_set]. destruct (decide (k = k0)) as [->|Hne].
    + destruct (decide (k0 ∈ ((k0, v0) :: d).*1)) as [_|Hnin]; [done|].
      exfalso. apply Hnin. left.
    + rewrite fmap_cons, IH. cbn [fst].
      destruct (decide (k ∈ d.*1)) as [Hin|Hnin];
        destruct (decide (k ∈ ((k0, v0) :: d).*1)) as [Hin'|Hnin']; try done.
      * exfalso. apply Hnin'. by right.
      * apply elem_of_cons in Hin' as [?|?]; done.
Qed.

Lemma dict_set_NoDup d k v :
  NoDup (dict_keys d) → NoDup (dict_keys (dict_set d k v)).
Proof.
  intros Hnd. rewrite dict_keys_set.
  destruct (decide (k ∈ dict_keys d)) as [Hin|Hnin]; [done|].
  apply NoDup_app. split; [done|]. split.
  - intros x Hx ->%list_elem_of_singleton. done.
  - apply NoDup_singleton.
Qed.

Lemma dict_get_is_Some_keys d k : is_Some (dict_get d k) ↔ k ∈ dict_keys d.
Proof.
  unfold dict_keys. induction d as [|[k0 v0] d IH].
  - split; [by intros [? ?]|by intros ?%elem_of_nil].
  - cbn [dict_get]. rewrite fmap_cons. cbn [fst].
    destruct (decide (k = k0)) as [->|Hne].
    + split; [intros _; left|by eexists].
    + rewrite IH. split; [by right|].
      intros [?|?]%elem_of_cons; done.
Qed.

Lemma at_label_dict_get (d : dict K V) k : at_label d k = dict_get d k.
Proof.
  induction d as [|[k0 v0] d IH]; simpl; [done|].
  destruct (decide (k = k0)); [done|]. apply IH.
Qed.

(** A dictionary is its keys, each with the value read under it. *)
Lemma dict_values_by_keys d :
  NoDup (dict_keys d) →
  d = omap (λ k, pair k <$> dict_get d k) (dict_keys d).
Proof.
  intros Hnd. rewrite <- (entries_at_index d) at 1 by done.
  unfold entries_at, dict_keys, index.
  induction (d.*1) as [|k l IH]; [done|].
  cbn [omap list_omap]. by rewrite at_label_dict_get, IH.
Qed.

End DictRoundTrip.

(** ** The amounts invested (lines 64-73) *)

Lemma invested_in_cons (t : transaction Qc) (txs : list (transaction Qc)) (s : string) :
  invested_in (t :: txs) s
  = ((if decide (tx_stock t = s) then tx_amount t else 0) + invested_in txs s)%Qc.
Proof.
  unfold invested_in. rewrite filter_cons.
  destruct (decide (tx_stock t = s)); csimpl.
  - done.
  - by rewrite Qcplus_0_l.
Qed.

Lemma invested_in_absent (txs : list (transaction Qc)) (s : string) :
  s ∉ tx_stock <$> txs → invested_in txs s = 0%Qc.
Proof.
  induction txs as [|t txs IH]; [done|].
  rewrite fmap_cons. intros [Hne Hnin]%not_elem_of_cons.
  rewrite invested_in_cons, IH by done.
  destruct (decide (tx_stock t = s)); [done|]. ring.
Qed.

(** The loop of lines 65-69, from any dictionary of finite amounts: a stock
    ends with what it had plus what its transactions add. *)
Lemma invested_amounts_fold (txs : list (transaction Qc))
    (d : dict string Exact.t) (g : string → option Qc) :
  (∀ s, dict_get d s = Exact.Fin <$> g s) →
  ∀ s,
    dict_get
      (fold_left
         (λ invested_amounts t,
            match dict_get invested_amounts (tx_stock t) with
            | Some a => dict_set invested_amounts (tx_stock t) (a + tx_amount t)%F
            | None => dict_set invested_amounts (tx_stock t) (tx_amount t)
            end)
         (exact_transaction <$> txs) d) s
    = Exact.Fin <$>
        match g s with
        | Some a => Some (a + invested_in txs s)%Qc
        | None => if decide (s ∈ tx_stock <$> txs)
                  then Some (invested_in txs s) else None
        end.
Proof.
  revert d g. induction txs as [|t txs IH]; intros d g Hd s.
  - cbn [fmap list_fmap fold_left]. rewrite Hd.
    destruct (g s) as [a|]; simpl.
    + do 2 f_equal. unfold invested_in. simpl. ring.
    + destruct (decide (s ∈ [])) as [Hin|]; [by apply elem_of_nil in Hin|done].
  - rewrite fmap_cons. cbn [fold_left].
    set (st := tx_stock t). set (amt := tx_amount t).
    change (tx_stock (exact_transaction t)) with st.
    change (tx_amount (exact_transaction t)) with (Exact.Fin amt).
    set (g' := λ s' : string,
           if decide (s' = st)
           then Some (match g st with Some a => a + amt | None => amt end)%Qc
           else g s').
    rewrite (IH _ g').
    + unfold g'. rewrite invested_in_cons. fold st amt. rewrite fmap_cons. fold st.
      destruct (decide (s = st)) as [Heq|Hne];
        destruct (decide (st = s)) as [Heq'|Hne']; try congruence;
        destruct (decide (s ∈ tx_stock <$> txs)) as [Hin|Hnin];
        destruct (decide (s ∈ st :: (tx_stock <$> txs))) as [Hin'|Hnin'];
        destruct (g s) as [a|] eqn:Hgs; destruct (g st) as [b|] eqn:Hgst;
        simplify_eq; cbn [fmap option_fmap option_map];
        try done; try (do 2 f_equal; ring);
        try (exfalso; apply Hnin'; first [left|by right]);
        try (apply elem_of_cons in Hin' as [?|?]; done).
    + intros s'. unfold g'. rewrite Hd.
      destruct (g st) as [a|]; simpl; rewrite dict_get_set;
        by destruct (decide (s' = st)).
Qed.

Lemma invested_amounts_keys_NoDup {F} `{Num F} (txs : list (transaction F))
    (d : dict string F) :
  NoDup (dict_keys d) →
  NoDup (dict_keys
           (fold_left
              (λ invested_amounts t,
                 match dict_get invested_amounts (tx_stock t) with
                 | Some a => dict_set invested_amounts (tx_stock t) (a + tx_amount t)%F
                 | None => dict_set invested_amounts (tx_stock t) (tx_amount t)
                 end)
              txs d)).
Proof.
  revert d. induction txs as [|t txs IH]; intros d Hd; [done|].
  cbn [fold_left]. apply IH.
  destruct (dict_get d (tx_stock t)); by apply dict_set_NoDup.
Qed.

Lemma invested_amounts_get (transactions : list (transaction Qc)) (stock : string) :
  dict_get (invested_amounts (exact_transaction <$> transactions)) stock
  = if decide (stock ∈ tx_stock <$> transactions)
    then Some (Exact.Fin (invested_in transactions stock))
    else None.
Proof.
  unfold invested_amounts.
  rewrite (invested_amounts_fold transactions [] (λ _, None)) by done.
  by destruct (decide (stock ∈ tx_stock <$> transactions)).
Qed.

Lemma invested_amounts_keys (transactions : list (transaction Qc)) (stock : string) :
  stock ∈ dict_keys (invested_amounts (exact_transaction <$> transactions))
  ↔ stock ∈ tx_stock <$> transactions.
Proof.
  rewrite <- dict_get_is_Some_keys, invested_amounts_get.
  destruct (decide (stock ∈ tx_stock <$> transactions)) as [Hin|Hnin].
  - split; [done|by eexists].
  - split; [by intros [? ?]|done].
Qed.

Lemma invested_amounts_NoDup {F} `{Num F} (transactions : list (transaction F)) :
  NoDup (dict_keys (invested_amounts transactions)).
Proof. apply invested_amounts_keys_NoDup, NoDup_nil_2. Qed.

(** The dictionary, entry by entry. *)
Lemma invested_amounts_entries (transactions : list (transaction Qc)) :
  invested_amounts (exact_transaction <$> transactions)
  = (λ k, (k, Exact.Fin (invested_in transactions k)))
      <$> dict_keys (invested_amounts (exact_transaction <$> transactions)).
Proof.
  rewrite (dict_values_by_keys (invested_amounts _)) at 1
    by apply invested_amounts_NoDup.
  generalize (λ k, proj1 (invested_amounts_keys transactions k)).
  induction (dict_keys _) as [|k l IH]; intros Hkeys; [done|].
  cbn [omap list_omap]. rewrite fmap_cons, invested_amounts_get.
  rewrite decide_True by (apply Hkeys; left). simpl. f_equal.
  apply IH. intros k' Hk'. apply Hkeys. by right.
Qed.

Lemma filter_eq_absent (x : string) (keys : list string) :
  x ∉ keys → filter (λ c, x = c) keys = [].
Proof.
  induction keys as [|k keys IH]; [done|].
  intros [Hne Hnin]%not_elem_of_cons.
  rewrite filter_cons_False by done. by apply IH.
Qed.

Lemma length_filter_eq_NoDup (x : string) (keys : list string) :
  NoDup keys → x ∈ keys → length (filter (λ c, x = c) keys) = 1.
Proof.
  induction 1 as [|k keys Hk Hnd IH]; intros Hin.
  - by apply elem_of_nil in Hin.
  - destruct (decide (x = k)) as [->|Hne].
    + rewrite filter_cons_True by done. by rewrite filter_eq_absent.
    + rewrite filter_cons_False by done. apply IH.
      apply elem_of_cons in Hin as [?|?]; done.
Qed.

Lemma Qsum_fmap_add {A} (f g : A → Qc) (l : list A) :
  Qsum ((λ x, f x + g x)%Qc <$> l) = (Qsum (f <$> l) + Qsum (g <$> l))%Qc.
Proof.
  induction l as [|x l IH]; csimpl.
  - change (0 = 0 + 0)%Qc. ring.
  - change (Qsum (?y :: ?k)) with (y + Qsum k)%Qc. rewrite IH. ring.
Qed.

(** Summing the amounts stock by stock, over distinct stocks that include
    every stock of the transactions, gives the sum of all the amounts. *)
Lemma Qsum_invested_in (transactions : list (transaction Qc)) (keys : list string) :
  NoDup keys → (∀ s, s ∈ tx_stock <$> transactions → s ∈ keys) →
  Qsum (invested_in transactions <$> keys) = Qsum (tx_amount <$> transactions).
Proof.
  intros Hnd. induction transactions as [|t txs IH]; intros Hcover.
  - clear. induction keys as [|k keys IH]; [done|].
    csimpl. change (Qsum (?y :: ?l)) with (y + Qsum l)%Qc. rewrite IH.
    unfold invested_in. simpl. ring.
  - rewrite fmap_cons. change (Qsum (?y :: ?l)) with (y + Qsum l)%Qc.
    rewrite <- IH by (intros s Hs; apply Hcover; rewrite fmap_cons; by right).
    rewrite (list_fmap_ext (invested_in (t :: txs))
               (λ s, (if decide (tx_stock t = s) then tx_amount t else 0)
                     + invested_in txs s)%Qc keys)
      by (intros; apply invested_in_cons).
    rewrite (Qsum_fmap_add (λ s, if decide (tx_stock t = s) then tx_amount t else 0%Qc)).
    f_equal. rewrite (Qsum_indicator (λ c, tx_stock t = c)).
    rewrite length_filter_eq_NoDup; [|done|apply Hcover; rewrite fmap_cons; left].
    change (Qnat 1) with 1%Qc. ring.
Qed.

Lemma invested_total (transactions : list (transaction Qc)) :
  py_sum (dict_values (invested_amounts (exact_transaction <$> transactions)))
  = Exact.Fin (Qsum (tx_amount <$> transactions)).
Proof.
  rewrite invested_amounts_entries. unfold dict_values.
  rewrite <- list_fmap_compose.
  change (snd ∘ _) with (Exact.Fin ∘ invested_in transactions).
  rewrite list_fmap_compose, py_sum_Fin. f_equal.
  apply Qsum_invested_in; [apply invested_amounts_NoDup|].
  intros s. apply invested_amounts_keys.
Qed.

(** X1. [invested_amounts] holds one entry for each stock that has a
    transaction, and the entry of a stock is the sum of the amounts of its
    transactions; a stock without a transaction has no entry.  Grouping
    loses nothing: the entries add up to the sum of all the amounts, which is
    what [total_invested] is. *)
Theorem invested_amounts_per_stock (transactions : list (transaction Qc)) (stock : string) :
  NoDup (dict_keys (invested_amounts (exact_transaction <$> transactions)))
  ∧ (stock ∈ dict_keys (invested_amounts (exact_transaction <$> transactions))
     ↔ stock ∈ tx_stock <$> transactions)
  ∧ dict_get (invested_amounts (exact_transaction <$> transactions)) stock
    = (if decide (stock ∈ tx_stock <$> transactions)
       then Some (Exact.Fin (invested_in transactions stock))
       else None)
  ∧ py_sum (dict_values (invested_amounts (exact_transaction <$> transactions)))
    = Exact.Fin (Qsum (tx_amount <$> transactions)).
Proof.
  split; [apply invested_amounts_NoDup|].
  split; [apply invested_amounts_keys|].
  split; [apply invested_amounts_get|apply invested_total].
Qed.

(** ** The weights of the current portfolio (line 73) *)

Lemma exact_iszero_Fin (q : Qc) : q ≠ 0%Qc → iszero (Exact.Fin q) = false.
Proof. intros Hq. simpl. by apply bool_decide_eq_false_2. Qed.

Lemma portfolio_weights_of_exact (transactions : list (transaction Qc))
    (total : Qc) (stocks : list string) :
  total ≠ 0%Qc → Forall (λ s, s ∈ tx_stock <$> transactions) stocks →
  portfolio_weights_of (invested_amounts (exact_transaction <$> transactions))
    (Exact.Fin total) stocks
  = Ok (Exact.Fin <$> ((λ s, invested_in transactions s / total)%Qc <$> stocks)).
Proof.
  intros Htotal. induction 1 as [|s stocks Hs _ IH]; [done|].
  cbn [portfolio_weights_of]. rewrite invested_amounts_get, decide_True by done.
  unfold py_truediv. rewrite exact_iszero_Fin by done.
  cbn [mbind result_bind]. rewrite IH. cbn [mbind result_bind].
  by rewrite exact_div_Fin.
Qed.

(** X2. The weights of the current portfolio: when the columns of the
    returns are the stocks of the transactions, each once, and the amounts
    do not add up to zero, the weight of a stock is the amount invested in
    it over the total invested, and the weights sum to 1. *)
Theorem portfolio_weights_sum_to_one (transactions : list (transaction Qc))
    (unique_stocks : list string) :
  NoDup unique_stocks →
  (∀ s, s ∈ unique_stocks ↔ s ∈ tx_stock <$> transactions) →
  Qsum (tx_amount <$> transactions) ≠ 0%Qc →
  let invested := invested_amounts (exact_transaction <$> transactions) in
  ∃ weights : list Qc,
    portfolio_weights_of invested (py_sum (dict_values invested)) unique_stocks
      = Ok (Exact.Fin <$> weights)
    ∧ weights = (λ s, invested_in transactions s
                       / Qsum (tx_amount <$> transactions))%Qc <$> unique_stocks
    ∧ Qsum weights = 1%Qc.
Proof.
  intros Hnd Hiff Htotal invested. eexists. split; [|split; [reflexivity|]].
  - unfold invested. rewrite invested_total.
    apply portfolio_weights_of_exact; [done|].
    apply Forall_forall. intros s Hs. by apply Hiff.
  - set (T := Qsum (tx_amount <$> transactions)) in *.
    replace ((λ s, invested_in transactions s / T)%Qc <$> unique_stocks)
      with ((λ q, q / T)%Qc <$> (invested_in transactions <$> unique_stocks))
      by (by rewrite <- list_fmap_compose).
    rewrite Qsum_div, Qsum_invested_in; [fold T; by field|done|].
    intros s Hs. by apply Hiff.
Qed.

Lemma portfolio_weights_sum_to_one_example :
  let transactions : list (transaction Qc) :=
    [("A", "d1", qc 10 1, qc 1000 1); ("B", "d1", qc 5 1, qc 500 1);
     ("A", "d2", qc 1 1, qc 500 1)]%string in
  let unique_stocks := ["B"; "A"]%string in
  (NoDup unique_stocks
   ∧ (∀ s, s ∈ unique_stocks ↔ s ∈ tx_stock <$> transactions)
   ∧ Qsum (tx_amount <$> transactions) ≠ 0%Qc)
  ∧ portfolio_weights_of (invested_amounts (exact_transaction <$> transactions))
      (py_sum (dict_values (invested_amounts (exact_transaction <$> transactions))))
      unique_stocks
    = Ok [Exact.Fin (qc 1 4); Exact.Fin (qc 3 4)].
Proof.
  intros transactions unique_stocks.
  assert (H1 : NoDup unique_stocks) by compute_done.
  assert (H2 : ∀ s, s ∈ unique_stocks ↔ s ∈ tx_stock <$> transactions).
  { intros s. unfold unique_stocks, transactions. cbn.
    rewrite !elem_of_cons, !elem_of_nil. tauto. }
  assert (H3 : Qsum (tx_amount <$> transactions) ≠ 0%Qc) by compute_done.
  split; [done|].
  destruct (portfolio_weights_sum_to_one transactions unique_stocks H1 H2 H3)
    as (weights & -> & -> & _).
  compute_done.
Defined.

(** How line 73 ends, in any arithmetic. *)
Lemma portfolio_weights_of_Ok {F} `{Num F} (invested : dict string F) (total : F)
    (stocks : list string) :
  Forall (λ s, is_Some (dict_get invested s)) stocks → iszero total = false →
  portfolio_weights_of invested total stocks
  = Ok ((λ s, (default nan (dict_get invested s) / total)%F) <$> stocks).
Proof.
  intros Hall Hz. induction Hall as [|s stocks [a Ha] _ IH]; [done|].
  cbn [portfolio_weights_of]. rewrite Ha. unfold py_truediv. rewrite Hz.
  cbn [mbind result_bind]. rewrite IH. cbn [mbind result_bind].
  by rewrite fmap_cons, Ha.
Qed.

Lemma portfolio_weights_of_KeyError {F} `{Num F} (invested : dict string F)
    (total : F) (stocks : list string) :
  iszero total = false → ¬ Forall (λ s, is_Some (dict_get invested s)) stocks →
  portfolio_weights_of invested total stocks = Raise KeyError.
Proof.
  intros Hz. induction stocks as [|s stocks IH]; intros Hnot.
  - exfalso. apply Hnot. constructor.
  - cbn [portfolio_weights_of].
    destruct (dict_get invested s) as [a|] eqn:Ha; [|done].
    unfold py_truediv. rewrite Hz. cbn [mbind result_bind].
    rewrite IH; [done|]. intros Hall. apply Hnot. constructor; [by eexists|done].
Qed.

(** X3. Line 73 succeeds exactly on stocks that all have an invested amount
    and a total that is not zero; a total of zero raises
    [ZeroDivisionError] at the first stock, and a stock without an invested
    amount raises [KeyError]. *)
Theorem portfolio_weights_of_outcome {F} `{Num F} (invested : dict string F)
    (total : F) (stock : string) (stocks : list string) :
  (Forall (λ s, is_Some (dict_get invested s)) (stock :: stocks) →
   iszero total = false →
   portfolio_weights_of invested total (stock :: stocks)
   = Ok ((λ s, (default nan (dict_get invested s) / total)%F) <$> stock :: stocks))
  ∧ (is_Some (dict_get invested stock) → iszero total = true →
     portfolio_weights_of invested total (stock :: stocks) = Raise ZeroDivisionError)
  ∧ (dict_get invested stock = None →
     portfolio_weights_of invested total (stock :: stocks) = Raise KeyError)
  ∧ (iszero total = false →
     ¬ Forall (λ s, is_Some (dict_get invested s)) (stock :: stocks) →
     portfolio_weights_of invested total (stock :: stocks) = Raise KeyError).
Proof.
  split; [apply portfolio_weights_of_Ok|].
  split; [|split; [|apply portfolio_weights_of_KeyError]].
  - intros [a Ha] Hz. cbn [portfolio_weights_of]. rewrite Ha.
    unfold py_truediv. by rewrite Hz.
  - intros Hnone. cbn [portfolio_weights_of]. by rewrite Hnone.
Qed.

Lemma portfolio_weights_of_outcome_example :
  let invested : dict string Exact.t :=
    [("A", Exact.of_Z 1000); ("B", Exact.of_Z 500)]%string in
  let nothing : dict string Exact.t :=
    [("A", Exact.of_Z 0); ("B", Exact.of_Z 0)]%string in
  portfolio_weights_of invested (Exact.of_Z 1500) ["A"; "B"]%string
    = Ok [Exact.frac 2 3; Exact.frac 1 3]
  ∧ portfolio_weights_of nothing (Exact.of_Z 0) ["A"; "B"]%string
    = Raise ZeroDivisionError
  ∧ portfolio_weights_of invested (Exact.of_Z 0) ["C"; "A"]%string = Raise KeyError
  ∧ portfolio_weights_of invested (Exact.of_Z 1500) ["A"; "C"]%string = Raise KeyError.
Proof.
  intros invested nothing.
  destruct (portfolio_weights_of_outcome invested (Exact.of_Z 1500) "A" ["B"]%string)
    as (Hok & _).
  destruct (portfolio_weights_of_outcome nothing (Exact.of_Z 0) "A" ["B"]%string)
    as (_ & Hzero & _).
  destruct (portfolio_weights_of_outcome invested (Exact.of_Z 0) "C" ["A"]%string)
    as (_ & _ & Hkey & _).
  destruct (portfolio_weights_of_outcome invested (Exact.of_Z 1500) "A" ["C"]%string)
    as (_ & _ & _ & Hkey').
  split; [|split; [|split]].
  - rewrite Hok; [compute_done| |reflexivity].
    repeat constructor; by eexists.
  - apply Hzero; [by eexists|reflexivity].
  - by apply Hkey.
  - apply Hkey'; [reflexivity|].
    intros Hall. apply Forall_cons in Hall as [_ Hall].
    apply Forall_cons in Hall as [[? Hc] _]. discriminate Hc.
Defined.

(** ** How [calculate_portfolio_statistics] fails before it computes *)



Lemma columns_raw_returns {F} `{Num F} (stock_data : DataFrame F) :
  columns (df_dropna (df_pct_change stock_data)) = columns stock_data.
Proof.
  unfold columns, df_dropna, df_pct_change. cbn [df_data].
  rewrite <- !list_fmap_compose. by apply list_fmap_ext.
Qed.



(** ** How [EWP_inner] ends *)

Section EWPOutcome.
Context {F : Type} `{Num F}.

Lemma positions_absent (x : string) (l : list string) : x ∉ l → positions x l = [].
Proof.
  intros Hx. destruct (positions x l) as [|i ps] eqn:Hps; [done|].
  exfalso. apply Hx. apply (list_elem_of_lookup_2 _ i).
  apply elem_of_positions. rewrite Hps. left.
Qed.

Lemma EWP_loop_KeyError (cols : list string) (n : nat) (weight : list F)
    (stocks : list string) :
  n ≠ 0 → ¬ Forall (λ s, s ∈ cols) stocks →
  EWP_loop cols n weight stocks = Raise KeyError.
Proof.
  intros Hn. revert weight. induction stocks as [|stock rest IH]; intros weight Hnot.
  - exfalso. apply Hnot. constructor.
  - cbn [EWP_loop]. unfold py_int_truediv.
    destruct (decide (Z.of_nat n = 0%Z)) as [?|_]; [lia|].
    cbn [mbind result_bind]. unfold get_loc.
    destruct (decide (stock ∈ cols)) as [Hin|Hnin].
    + destruct (positions stock cols) as [|p ps] eqn:Hps.
      { by apply positions_nonempty in Hin. }
      cbn [mbind result_bind]. apply IH.
      intros Hall. apply Hnot. by constructor.
    + by rewrite positions_absent.
Qed.

(** X5. [EWP_inner] never divides by zero.  It returns one weight for each
    column when every selected stock is a column (all weights zero for an
    empty selection), and raises [KeyError] otherwise. *)
Theorem EWP_inner_outcome (returns : DataFrame F) (selected_stocks : list string) :
  (Forall (λ s, s ∈ columns returns) selected_stocks →
   ∃ weights,
     EWP_inner returns selected_stocks = Ok weights
     ∧ length weights = length (columns returns)
     ∧ (selected_stocks = [] → weights = np_zeros (length (columns returns))))
  ∧ (¬ Forall (λ s, s ∈ columns returns) selected_stocks →
     EWP_inner returns selected_stocks = Raise KeyError)
  ∧ EWP_inner returns selected_stocks ≠ Raise ZeroDivisionError.
Proof.
  assert (Hok : Forall (λ s, s ∈ columns returns) selected_stocks →
    ∃ weights,
      EWP_inner returns selected_stocks = Ok weights
      ∧ length weights = length (columns returns)
      ∧ (selected_stocks = [] → weights = np_zeros (length (columns returns)))).
  { intros Hall. destruct selected_stocks as [|s sel].
    - eexists. split; [reflexivity|]. split; [|done].
      unfold np_zeros. by rewrite length_replicate.
    - eexists. split; [by apply EWP_inner_selected|].
      split; [by rewrite length_fmap|done]. }
  assert (Hkey : ¬ Forall (λ s, s ∈ columns returns) selected_stocks →
                 EWP_inner returns selected_stocks = Raise KeyError).
  { intros Hnot. unfold EWP_inner. apply EWP_loop_KeyError; [|done].
    destruct selected_stocks; [|done]. exfalso. apply Hnot. constructor. }
  split; [done|]. split; [done|].
  destruct (decide (Forall (λ s, s ∈ columns returns) selected_stocks)) as [Hall|Hnot].
  - destruct (Hok Hall) as (w & -> & _). done.
  - rewrite (Hkey Hnot). done.
Qed.

End EWPOutcome.

Lemma EWP_inner_outcome_example :
  EWP_inner (exact_frame Sample.returns_AB) [] = Ok [Exact.of_Z 0; Exact.of_Z 0]
  ∧ EWP_inner (exact_frame Sample.returns_AB) ["A"; "C"]%string = Raise KeyError.
Proof.
  destruct (EWP_inner_outcome (exact_frame Sample.returns_AB) []) as (Hok & _).
  destruct (EWP_inner_outcome (exact_frame Sample.returns_AB) ["A"; "C"]%string)
    as (_ & Hkey & _).
  split.
  - destruct Hok as (w & -> & _ & Hzero); [constructor|].
    by rewrite Hzero.
  - apply Hkey. intros Hall. apply Forall_cons in Hall as [_ Hall].
    apply Forall_cons in Hall as [Hc _]. revert Hc. compute_done.
Defined.

(** ** The weights the strategies pass on *)

Lemma columns_df_getitem {F} (df : DataFrame F) (selected : list string) :
  NoDup (columns df) → Forall (λ s, s ∈ columns df) selected →
  ∃ selected_returns,
    df_getitem df selected = Ok selected_returns
    ∧ columns selected_returns = selected
    ∧ df_index selected_returns = df_index df.
Proof.
  intros Hnd Hin. unfold df_getitem.
  rewrite df_getitem_data_NoDup by done. cbn [mbind result_bind].
  eexists. split; [reflexivity|]. split; [|done].
  unfold columns. cbn [df_data]. rewrite <- list_fmap_compose.
  rewrite <- (list_fmap_id selected) at 2. by apply list_fmap_ext.
Qed.

Lemma fmap_if_Forall {A B} (P : A → Prop) `{∀ x, Decision (P x)} (v w : B)
    (l : list A) :
  Forall P l → (λ c, if decide (P c) then v else w) <$> l = replicate (length l) v.
Proof.
  induction 1 as [|x l Hx _ IH]; [done|].
  csimpl. rewrite IH. by destruct (decide (P x)).
Qed.

(** X6. Lines 146-147: the equal weights are computed on the returns
    restricted to the selected stocks, so every weight the strategy passes
    on is [1/N], one for each selected stock. *)
Theorem EWP_weights_uniform {F} `{Num F} (daily_returns : DataFrame F)
    (selected_stocks : list string) :
  selected_stocks ≠ [] →
  NoDup (columns daily_returns) →
  Forall (λ s, s ∈ columns daily_returns) selected_stocks →
  (selected_returns ← df_getitem daily_returns selected_stocks;
   EWP_inner selected_returns selected_stocks)
  = Ok (replicate (length selected_stocks)
          (of_Z 1 / of_Z (Z.of_nat (length selected_stocks)))%F).
Proof.
  intros Hne Hnd Hin.
  destruct (columns_df_getitem daily_returns selected_stocks Hnd Hin)
    as (selected_returns & -> & Hcols & _).
  cbn [mbind result_bind].
  rewrite EWP_inner_selected, Hcols; [|done|rewrite Hcols; by apply Forall_forall].
  f_equal. apply (fmap_if_Forall (λ c, c ∈ selected_stocks)).
  by apply Forall_forall.
Qed.

Lemma EWP_weights_uniform_example :
  let selected := ["B"; "A"]%string in
  (selected ≠ [] ∧ NoDup (columns Sample.prices_AB64)
   ∧ Forall (λ s, s ∈ columns Sample.prices_AB64) selected)
  ∧ (selected_returns ← df_getitem Sample.prices_AB64 selected;
     EWP_inner selected_returns selected)
    = Ok [Binary64.dyadic 1 (-1); Binary64.dyadic 1 (-1)].
Proof.
  intros selected.
  assert (H1 : selected ≠ []) by done.
  assert (H2 : NoDup (columns Sample.prices_AB64)) by compute_done.
  assert (H3 : Forall (λ s, s ∈ columns Sample.prices_AB64) selected)
    by compute_done.
  split; [done|].
  rewrite (EWP_weights_uniform Sample.prices_AB64 selected H1 H2 H3).
  by vm_compute.
Defined.

(** X7. When the sums of the selected columns add up to a zero, [RWP_inner]
    raises nothing: it returns, for every selected stock, not-a-number (if
    the stock's own sum is zero or not-a-number) or an infinity. *)
Theorem RWP_inner_zero_total (returns : DataFrame Binary64.t)
    (selected_stocks : list string) :
  let column s := default [] (dict_get (df_data returns) s) in
  NoDup (columns returns) →
  Forall (λ s, s ∈ columns returns) selected_stocks →
  Binary64.is_zero (nansum ((λ s, nansum (column s)) <$> selected_stocks)) = true →
  ∃ weights,
    RWP_inner returns selected_stocks = Ok weights
    ∧ index weights = selected_stocks
    ∧ Forall (λ w, Binary64.is_nan w || Binary64.is_inf w = true) (values weights)
    ∧ ∀ i s w, weights !! i = Some (s, w) →
        Binary64.is_nan w
        = Binary64.is_zero (nansum (column s)) || Binary64.is_nan (nansum (column s)).
Proof.
  intros column Hnd Hin Hzero.
  eexists. split; [by apply RWP_inner_quotients|].
  split; [|split].
  - unfold index. rewrite <- list_fmap_compose.
    rewrite <- (list_fmap_id selected_stocks) at 2. by apply list_fmap_ext.
  - unfold values. rewrite <- list_fmap_compose.
    apply Forall_fmap, Forall_forall. intros s _.
    destruct (binary64_div_zero (nansum (column s)) _ Hzero) as [Hn Hi].
    unfold compose. cbn [snd]. change ndiv with Binary64.div.
    unfold column in Hn, Hi. rewrite Hn, Hi. by destruct (_ || _).
  - intros i s w Hw. apply list_lookup_fmap_Some in Hw as (s' & [= -> ->] & _).
    by destruct (binary64_div_zero (nansum (column s')) _ Hzero) as [Hn _].
Qed.

Lemma RWP_inner_zero_total_example :
  let returns : DataFrame Binary64.t :=
    mkDataFrame [1; 2]%Z
      [("A", [Binary64.dyadic 1 (-6); Binary64.dyadic 1 (-6)]);
       ("B", [Binary64.dyadic (-1) (-6); Binary64.dyadic (-1) (-6)]);
       ("C", [Binary64.dyadic 1 (-6); Binary64.dyadic (-1) (-6)])]%string in
  let selected := ["A"; "B"; "C"]%string in
  (NoDup (columns returns) ∧ Forall (λ s, s ∈ columns returns) selected
   ∧ Binary64.is_zero
       (nansum ((λ s, nansum (default [] (dict_get (df_data returns) s)))
                  <$> selected)) = true)
  ∧ ∃ weights,
      RWP_inner returns selected = Ok weights
      ∧ index weights = selected
      ∧ Forall (λ w, Binary64.is_nan w || Binary64.is_inf w = true) (values weights)
      ∧ ∀ i s w, weights !! i = Some (s, w) →
          Binary64.is_nan w
          = Binary64.is_zero (nansum (default [] (dict_get (df_data returns) s)))
            || Binary64.is_nan (nansum (default [] (dict_get (df_data returns) s))).
Proof.
  intros returns selected.
  assert (H1 : NoDup (columns returns)) by compute_done.
  assert (H2 : Forall (λ s, s ∈ columns returns) selected) by compute_done.
  assert (H3 : Binary64.is_zero
                 (nansum ((λ s, nansum (default [] (dict_get (df_data returns) s)))
                            <$> selected)) = true) by reflexivity.
  split; [done|].
  exact (RWP_inner_zero_total returns selected H1 H2 H3).
Defined.

(** ** The allocation, whatever the labels *)

Section DictOf.
Context {K V : Type} `{EqDecision K}.

Lemma dict_of_acc_NoDup_keys (kvs : list (K * V)) (d : dict K V) :
  NoDup (dict_keys d) →
  NoDup (dict_keys (fold_left (λ d kv, dict_set d kv.1 kv.2) kvs d)).
Proof.
  revert d. induction kvs as [|[k v] kvs IH]; intros d Hnd; [done|].
  simpl. by apply IH, dict_set_NoDup.
Qed.

Lemma dict_of_acc_keys (kvs : list (K * V)) (d : dict K V) k :
  k ∈ dict_keys (fold_left (λ d kv, dict_set d kv.1 kv.2) kvs d)
  ↔ k ∈ dict_keys d ∨ k ∈ kvs.*1.
Proof.
  revert d. induction kvs as [|[k0 v0] kvs IH]; intros d.
  - simpl. split; [by left|]. intros [?|?%elem_of_nil]; done.
  - cbn [fold_left]. rewrite IH, dict_keys_set, fmap_cons. cbn [fst].
    rewrite elem_of_cons.
    destruct (decide (k0 ∈ dict_keys d)) as [Hin|Hnin].
    + split; [tauto|]. intros [?|[->|?]]; tauto.
    + rewrite elem_of_app, list_elem_of_singleton. tauto.
Qed.

End DictOf.

(** A dictionary built from pairs holds, under a key, the value of the last
    pair with that key. *)
Lemma dict_of_acc_get {K F} `{EqDecision K} (kvs : list (K * F)) (d : dict K F) k :
  dict_get (fold_left (λ d kv, dict_set d kv.1 kv.2) kvs d) k
  = match at_label (reverse kvs) k with
    | Some v => Some v
    | None => dict_get d k
    end.
Proof.
  revert d. induction kvs as [|[k0 v0] kvs IH] using rev_ind; intros d; [done|].
  rewrite fold_left_app, reverse_snoc. cbn [fold_left at_label fst snd].
  rewrite dict_get_set. destruct (decide (k = k0)); [done|]. apply IH.
Qed.

Lemma at_label_fmap_snd {K F G} `{EqDecision K} (f : F → G) (s : Series K F) k :
  at_label ((λ p : K * F, (p.1, f p.2)) <$> s) k = f <$> at_label s k.
Proof.
  induction s as [|[k0 v0] s IH]; [done|].
  rewrite fmap_cons. cbn [at_label fst snd].
  destruct (decide (k = k0)); [done|]. apply IH.
Qed.

(** X8. [calculate_investments] never raises, whatever the labels of the
    prices: the allocation has one entry for each distinct label among those
    that are paired with a weight, and where a label is repeated the entry
    is computed from the weight paired with its last occurrence. *)
Theorem calculate_investments_repeated_labels {F} `{Num F}
    (transactions : list (transaction F)) (weights : list F)
    (current_prices : Series string F) :
  ∃ allocation,
    calculate_investments transactions weights current_prices = Ok allocation
    ∧ NoDup (dict_keys allocation)
    ∧ (∀ stock, stock ∈ dict_keys allocation
                ↔ stock ∈ take (length weights) (index current_prices))
    ∧ ∀ stock,
        dict_get allocation stock
        = (λ w, (w * py_sum (tx_amount <$> transactions))%F)
            <$> at_label (reverse (zip (index current_prices) weights)) stock.
Proof.
  eexists. split; [done|]. unfold dict_of. split; [|split].
  - apply dict_of_acc_NoDup_keys. constructor.
  - intros stock. rewrite dict_of_acc_keys.
    rewrite <- list_fmap_compose.
    replace ((fst ∘ (λ sw : string * F,
                (sw.1, (sw.2 * py_sum (tx_amount <$> transactions))%F)))
             <$> zip (index current_prices) weights)
      with ((zip (index current_prices) weights).*1)
      by (by apply list_fmap_ext).
    rewrite fst_zip_take. split; [|by right].
    intros [?%elem_of_nil|?]; done.
  - intros stock. rewrite dict_of_acc_get, <- fmap_reverse.
    rewrite (at_label_fmap_snd
               (λ w, (w * py_sum (tx_amount <$> transactions))%F)).
    by destruct (at_label _ stock).
Qed.

(** ** The allocation of the equally-weighted strategy *)

Lemma tx_amount_exact (transactions : list (transaction Qc)) :
  tx_amount <$> (exact_transaction <$> transactions)
  = Exact.Fin <$> (tx_amount <$> transactions).
Proof. rewrite <- !list_fmap_compose. by apply list_fmap_ext. Qed.

Lemma Qsum_replicate (n : nat) (q : Qc) : Qsum (replicate n q) = (Qnat n * q)%Qc.
Proof.
  induction n as [|n IH].
  - change (0 = 0 * q)%Qc. ring.
  - rewrite Qnat_S. simpl. change (Qsum (q :: ?l)) with (q + Qsum l)%Qc.
    rewrite IH. ring.
Qed.

Lemma zip_fmap_replicate {A B C} (f : B → C) (l : list A) (b : B) :
  zip l (f <$> replicate (length l) b) = (λ a, (a, f b)) <$> l.
Proof. induction l as [|a l IH]; [done|]. simpl. f_equal. exact IH. Qed.

(** X9. Lines 146-149 with lines 200-204, in exact arithmetic: when the
    prices are labelled by the selected stocks, the equally-weighted
    strategy allocates to each selected stock the total invested divided by
    the number of selected stocks, and the amounts allocated add up to the
    total invested. *)
Theorem EWP_allocation_equal_shares (daily_returns : DataFrame Exact.t)
    (selected_stocks : list string) (transactions : list (transaction Qc))
    (current_prices : Series string Exact.t) :
  let total := Qsum (tx_amount <$> transactions) in
  let share := (total / Qnat (length selected_stocks))%Qc in
  selected_stocks ≠ [] → NoDup selected_stocks →
  NoDup (columns daily_returns) →
  Forall (λ s, s ∈ columns daily_returns) selected_stocks →
  index current_prices = selected_stocks →
  ∃ investments,
    (selected_returns ← df_getitem daily_returns selected_stocks;
     ewp_weights ← EWP_inner selected_returns selected_stocks;
     calculate_investments (exact_transaction <$> transactions) ewp_weights
       current_prices)
    = Ok investments
    ∧ investments = (λ s, (s, Exact.Fin share)) <$> selected_stocks
    ∧ py_sum (dict_values investments) = Exact.Fin total.
Proof.
  intros total share Hne Hnd Hcols Hin Hidx.
  destruct (columns_df_getitem daily_returns selected_stocks Hcols Hin)
    as (selected_returns & -> & Hsel & _).
  cbn [mbind result_bind].
  rewrite EWP_inner_selected, Hsel; [|done|rewrite Hsel; by apply Forall_forall].
  cbn [mbind result_bind].
  rewrite (fmap_if_Forall (λ c, c ∈ selected_stocks))
    by (by apply Forall_forall).
  rewrite calculate_investments_pairs by (by rewrite Hidx).
  rewrite Hidx, tx_amount_exact, py_sum_Fin. fold total.
  assert (HN : Qnat (length selected_stocks) ≠ 0%Qc)
    by (apply Qnat_nonzero; by destruct selected_stocks).
  rewrite exact_of_nat. change (of_Z 1) with (Exact.Fin 1%Qc).
  rewrite exact_div_Fin by done.
  rewrite (zip_fmap_replicate (λ w, (w * Exact.Fin total)%F)).
  assert (Hshare : (Exact.Fin (1 / Qnat (length selected_stocks)) * Exact.Fin total)%F
                   = Exact.Fin share).
  { simpl. f_equal. unfold share. field. done. }
  rewrite Hshare. eexists. split; [done|]. split; [done|].
  unfold dict_values. rewrite <- list_fmap_compose.
  change (snd ∘ (λ s : string, (s, Exact.Fin share)))
    with (Exact.Fin ∘ (λ _ : string, share)).
  rewrite list_fmap_compose, py_sum_Fin. f_equal.
  rewrite (const_fmap _ selected_stocks share) by done.
  rewrite Qsum_replicate. unfold share. field. done.
Qed.

Lemma EWP_allocation_equal_shares_example :
  let daily_returns := exact_frame Sample.returns_AB in
  let selected := ["B"; "A"]%string in
  let transactions : list (transaction Qc) :=
    [("A", "d1", qc 10 1, qc 1000 1); ("B", "d1", qc 5 1, qc 500 1)]%string in
  let current_prices : Series string Exact.t :=
    [("B", Exact.of_Z 20); ("A", Exact.of_Z 10)]%string in
  (selected ≠ [] ∧ NoDup selected ∧ NoDup (columns daily_returns)
   ∧ Forall (λ s, s ∈ columns daily_returns) selected
   ∧ index current_prices = selected)
  ∧ ∃ investments,
      (selected_returns ← df_getitem daily_returns selected;
       ewp_weights ← EWP_inner selected_returns selected;
       calculate_investments (exact_transaction <$> transactions) ewp_weights
         current_prices)
      = Ok investments
      ∧ investments = [("B", Exact.of_Z 750); ("A", Exact.of_Z 750)]%string.
Proof.
  intros daily_returns selected transactions current_prices.
  assert (H1 : selected ≠ []) by done.
  assert (H2 : NoDup selected) by compute_done.
  assert (H3 : NoDup (columns daily_returns)) by compute_done.
  assert (H4 : Forall (λ s, s ∈ columns daily_returns) selected) by compute_done.
  assert (H5 : index current_prices = selected) by done.
  split; [done|].
  destruct (EWP_allocation_equal_shares daily_returns selected transactions
              current_prices H1 H2 H3 H4 H5) as (inv & Hinv & -> & _).
  eexists. split; [exact Hinv|]. compute_done.
Defined.

(** ** How [update_data] ends *)

Section IndexerElems.
Context {A : Type} `{EqDecision A}.
Implicit Types (x : A) (idx labels : list A).

Lemma take_positions_positions x idx d :
  d ∈ take_positions (positions x idx) idx ↔ d = x ∧ x ∈ idx.
Proof.
  unfold take_positions. rewrite list_elem_of_omap. split.
  - intros (i & Hi%elem_of_positions & Hd). split; [congruence|].
    by eapply list_elem_of_lookup_2.
  - intros [-> [i Hi]%list_elem_of_lookup]. exists i.
    split; [by apply elem_of_positions|done].
Qed.

(** Looking up labels that are all present succeeds, repeated or not, and
    the positions found carry exactly those labels. *)
Lemma get_indexer_present idx labels :
  Forall (λ l, l ∈ idx) labels →
  ∃ ps, get_indexer idx labels = Ok ps
        ∧ ∀ d, d ∈ take_positions ps idx ↔ d ∈ labels.
Proof.
  induction labels as [|l labels IH]; intros Hin.
  - exists []. split; [done|]. intros d. unfold take_positions. simpl.
    split; by intros ?%elem_of_nil.
  - apply Forall_cons in Hin as [Hl Hin].
    destruct (IH Hin) as (ps & Hps & Helem).
    exists (positions l idx ++ ps). cbn [get_indexer]. rewrite Hps.
    pose proof (positions_nonempty l idx Hl) as Hne.
    split; [by destruct (positions l idx)|].
    intros d. rewrite take_positions_app, elem_of_app, elem_of_cons.
    rewrite take_positions_positions, Helem. tauto.
Qed.

End IndexerElems.

Section UpdateOutcome.
Context {F : Type} `{Num F}.

Lemma dropna_values {K} (s : Series K F) :
  Forall (λ v, isnan v = false) (values (dropna s)).
Proof.
  unfold values, dropna. apply Forall_fmap, Forall_forall.
  by intros p [? _]%list_elem_of_filter.
Qed.

Lemma index_dropna {K} (s : Series K F) k : k ∈ index (dropna s) → k ∈ index s.
Proof.
  unfold index, dropna. intros ([k' v] & -> & [_ Hp]%list_elem_of_filter)%list_elem_of_fmap.
  apply list_elem_of_fmap. by exists (k', v).
Qed.

(** The dates a conformed series keeps once its missing values are dropped
    are dates asked for at which the series has an entry. *)
Lemma index_dropna_conform (market : Series date F) (target : list date) d :
  d ∈ index (dropna ((λ k, (k, default nan (at_label market k))) <$> target)) →
  d ∈ target ∧ d ∈ index market.
Proof.
  unfold index, dropna.
  intros ([k v] & -> & [Hv Hp]%list_elem_of_filter)%list_elem_of_fmap.
  apply list_elem_of_fmap in Hp as (k' & [= -> ->] & Hk). cbn [fst snd] in *.
  split; [done|]. destruct (decide (k' ∈ index market)) as [|Hnin]; [done|].
  rewrite at_label_fresh in Hv by done. simpl in Hv.
  by rewrite isnan_nan in Hv.
Qed.

Lemma columns_df_loc (df df' : DataFrame F) labels :
  df_loc df labels = Ok df' → columns df' = columns df.
Proof.
  unfold df_loc. destruct (get_indexer _ _) as [ps|e]; [|done].
  cbn [mbind result_bind]. intros [= <-]. unfold columns. cbn [df_data].
  rewrite <- list_fmap_compose. by apply list_fmap_ext.
Qed.

(** Lines 44-45 succeed when the benchmark returns have the dates of the
    instrument returns or have no repeated date. *)
Lemma align_returns_Ok (daily_returns : DataFrame F) (market : Series date F) :
  index market = df_index daily_returns ∨ NoDup (index market) →
  ∃ daily_returns' market',
    align_returns daily_returns market = Ok (daily_returns', market')
    ∧ columns daily_returns' = columns daily_returns
    ∧ Forall (λ v, isnan v = false) (values market')
    ∧ (∀ d, d ∈ index market' → d ∈ df_index daily_returns ∧ d ∈ index market)
    ∧ (∀ d, d ∈ df_index daily_returns' ↔ d ∈ index market').
Proof.
  intros Hcase. unfold align_returns.
  assert (Hre : ∃ conformed,
            reindex market (df_index daily_returns) = Ok conformed
            ∧ ∀ d, d ∈ index (dropna conformed)
                   → d ∈ df_index daily_returns ∧ d ∈ index market).
  { unfold reindex.
    destruct (decide (index market = df_index daily_returns)) as [Heq|Hne].
    - exists market. split; [done|]. intros d Hd%index_dropna.
      split; [by rewrite <- Heq|done].
    - destruct Hcase as [?|Hnd]; [done|].
      destruct (decide (NoDup (index market))); [|done].
      eexists. split; [done|]. apply index_dropna_conform. }
  destruct Hre as (conformed & -> & Hdates). cbn [mbind result_bind].
  destruct (get_indexer_present (df_index daily_returns)
              (index (dropna conformed))) as (ps & Hps & Helem).
  { apply Forall_forall. intros d Hd. by apply Hdates. }
  unfold df_loc. rewrite Hps. cbn [mbind result_bind].
  eexists _, _. split; [done|]. split; [|split; [|split]].
  - unfold columns. cbn [df_data]. rewrite <- list_fmap_compose.
    by apply list_fmap_ext.
  - apply dropna_values.
  - exact Hdates.
  - exact Helem.
Qed.

Lemma align_returns_ValueError (daily_returns : DataFrame F)
    (market : Series date F) :
  ¬ (index market = df_index daily_returns ∨ NoDup (index market)) →
  align_returns daily_returns market = Raise ValueError.
Proof.
  intros Hcase. unfold align_returns, reindex.
  destruct (decide (index market = df_index daily_returns)); [tauto|].
  destruct (decide (NoDup (index market))); [tauto|done].
Qed.

End UpdateOutcome.

(** X10. [update_data] raises nothing but [ValueError], and raises it
    exactly when the raw benchmark returns repeat a date and their dates are
    not those of the raw instrument returns.  Otherwise it returns the
    columns of the prices, benchmark returns without a missing value, and on
    both sides the same set of dates, each one a date of both raw series. *)
Theorem update_data_outcome {F} `{Num F} (stock_data : DataFrame F)
    (market_data : Series date F) :
  let raw_returns := df_dropna (df_pct_change stock_data) in
  let raw_market := dropna (pct_change market_data) in
  if decide (index raw_market = df_index raw_returns ∨ NoDup (index raw_market))
  then
    ∃ daily_returns market_daily_returns,
      update_data stock_data market_data = Ok (daily_returns, market_daily_returns)
      ∧ columns daily_returns = columns stock_data
      ∧ Forall (λ v, isnan v = false) (values market_daily_returns)
      ∧ (∀ d, d ∈ index market_daily_returns
              → d ∈ df_index raw_returns ∧ d ∈ index raw_market)
      ∧ (∀ d, d ∈ df_index daily_returns ↔ d ∈ index market_daily_returns)
  else update_data stock_data market_data = Raise ValueError.
Proof.
  intros raw_returns raw_market. unfold update_data. fold raw_returns raw_market.
  destruct (decide _) as [Hcase|Hcase].
  - destruct (align_returns_Ok raw_returns raw_market Hcase)
      as (dr & m & Hok & Hcols & Hnan & Hdates & Hsame).
    exists dr, m. split; [done|]. split; [|done].
    rewrite Hcols. apply columns_raw_returns.
  - by apply align_returns_ValueError.
Qed.

(** The failing case occurs: a benchmark quoted twice on the second day,
    next to instruments quoted on three days. *)
Lemma update_data_repeated_benchmark_date :
  update_data Sample.prices_AB64
    [(1, Binary64.of_Z 1); (2, Binary64.of_Z 2); (2, Binary64.of_Z 4)]%Z
  = Raise ValueError.
Proof. by vm_compute. Qed.

(** ** The first date has no return *)

Section FirstDate.
Context {F : Type} `{Num F}.

Lemma length_ffill_from (last : option F) (xs : list F) :
  length (ffill_from last xs) = length xs.
Proof.
  revert last. induction xs as [|x xs IH]; intros last; [done|].
  simpl. destruct (isnan x); simpl; by rewrite IH.
Qed.

(** The changes of a non-empty column start with not-a-number and are as
    many as the prices. *)
Lemma pct_change_values_cons (x : F) (xs : list F) :
  ∃ rest, pct_change_values (x :: xs) = nan :: rest ∧ length rest = length xs.
Proof.
  unfold pct_change_values.
  pose proof (length_ffill_from None (x :: xs)) as Hlen.
  destruct (ffill_from None (x :: xs)) as [|y ys]; [done|].
  eexists. split; [done|].
  rewrite length_zip_with. cbn [length] in *. lia.
Qed.

Lemma compress_sublist {A} (mask : list bool) (xs : list A) :
  compress mask xs `sublist_of` xs.
Proof.
  revert xs. induction mask as [|b mask IH]; intros [|x xs]; simpl;
    try apply sublist_nil_l.
  destruct b; [by apply sublist_skip|by apply sublist_cons].
Qed.

Lemma index_dropna_zip {K} (ks : list K) (vs : list F) :
  index (dropna (zip ks vs)) `sublist_of` ks.
Proof.
  unfold index, dropna. etrans.
  - apply fmap_sublist, sublist_filter.
  - rewrite fst_zip_take. apply sublist_take.
Qed.

Lemma pct_change_first {K} (s : Series K F) :
  index (dropna (pct_change s)) `sublist_of` tail (index s).
Proof.
  destruct s as [|[k v] s]; [done|].
  unfold pct_change. change (values ((k, v) :: s)) with (v :: values s).
  change (index ((k, v) :: s)) with (k :: index s).
  destruct (pct_change_values_cons v (values s)) as (rest & -> & _).
  cbn [zip zip_with tail]. unfold dropna.
  rewrite (filter_cons_False (λ p : K * F, isnan p.2 = false))
    by (simpl; by rewrite isnan_nan).
  apply index_dropna_zip.
Qed.

Lemma df_pct_change_first (df : DataFrame F) :
  df_wf df → columns df ≠ [] →
  df_index (df_dropna (df_pct_change df)) `sublist_of` tail (df_index df).
Proof.
  intros Hwf Hcols. unfold df_dropna. cbn [df_index df_pct_change].
  destruct (df_index df) as [|d idx] eqn:Hidx; [done|].
  cbn [length seq fmap list_fmap tail].
  assert (Hrow : row_has_nan (df_pct_change df) 0 = true).
  { unfold row_has_nan, df_pct_change. cbn [df_data].
    unfold columns in Hcols. unfold df_wf in Hwf.
    destruct (df_data df) as [|[c xs] data]; [done|].
    apply Forall_cons in Hwf as [Hlen _]. rewrite Hidx in Hlen. simpl in Hlen.
    destruct xs as [|x xs]; [done|].
    rewrite fmap_cons. cbn [existsb fst snd].
    destruct (pct_change_values_cons x xs) as (rest & -> & _).
    simpl. by rewrite isnan_nan. }
  change (list_fmap nat bool ?f (0 :: ?l)) with (f 0 :: (f <$> l)).
  cbn beta. rewrite Hrow. cbn [negb compress]. apply compress_sublist.
Qed.

End FirstDate.

(** X11. Lines 40 and 42: the first date of a price series has no return.
    The dates of the raw returns are dates of the prices after the first, in
    the order of the prices, for the benchmark and, when the frame has a
    column, for the instruments. *)
Theorem first_date_has_no_return {F} `{Num F} (stock_data : DataFrame F)
    (market_data : Series date F) :
  index (dropna (pct_change market_data)) `sublist_of` tail (index market_data)
  ∧ (df_wf stock_data → columns stock_data ≠ [] →
     df_index (df_dropna (df_pct_change stock_data))
       `sublist_of` tail (df_index stock_data)).
Proof.
  split; [apply pct_change_first|apply df_pct_change_first].
Qed.

Lemma first_date_has_no_return_example :
  (df_wf Sample.prices_AB64 ∧ columns Sample.prices_AB64 ≠ [])
  ∧ df_index (df_dropna (df_pct_change Sample.prices_AB64))
      `sublist_of` tail (df_index Sample.prices_AB64).
Proof.
  assert (H1 : df_wf Sample.prices_AB64) by (repeat constructor).
  assert (H2 : columns Sample.prices_AB64 ≠ []) by done.
  split; [done|].
  exact (proj2 (first_date_has_no_return Sample.prices_AB64 Sample.market_prices64)
           H1 H2).
Defined.

(** ** The statistics block *)

(** X12. On a frame whose columns are as long as its index, the block that
    computes the return, the risk and the Sharpe ratio raises [ValueError]
    when the number of weights is not the number of columns, and nothing
    otherwise: it then returns one portfolio return per date, with their
    mean, their standard deviation and the ratio of the two. *)
Theorem portfolio_performance_outcome {F} `{Num F} `{Sqrt F}
    (daily_returns : DataFrame F) (portfolio_weights : list F) :
  df_wf daily_returns →
  if decide (length portfolio_weights = length (columns daily_returns))
  then
    ∃ returns,
      portfolio_performance daily_returns portfolio_weights
      = Ok (returns, np_mean returns, np_std returns,
            (np_mean returns / np_std returns)%F)
      ∧ length returns = length (df_index daily_returns)
      ∧ ∀ t row, df_values daily_returns !! t = Some row →
                 returns !! t = Some (inner row portfolio_weights)
  else portfolio_performance daily_returns portfolio_weights = Raise ValueError.
Proof.
  intros Hwf. unfold portfolio_performance.
  destruct (decide _) as [Hlen|Hlen].
  - rewrite np_dot_Ok; [|done|by apply df_values_rows].
    cbn [mbind result_bind]. eexists. split; [done|]. split.
    + unfold df_values. by rewrite !length_fmap, length_seq.
    + intros t row Hrow. by rewrite list_lookup_fmap, Hrow.
  - unfold np_dot. rewrite bool_decide_eq_false_2; [done|].
    intros [Heq _]. by rewrite Heq in Hlen.
Qed.

Lemma portfolio_performance_outcome_example :
  df_wf Sample.returns_AB64
  ∧ portfolio_performance Sample.returns_AB64 [Binary64.of_Z 1]
    = Raise ValueError
  ∧ ∃ returns,
      portfolio_performance Sample.returns_AB64
        [Binary64.of_Z 1; Binary64.of_Z 1]
      = Ok (returns, np_mean returns, np_std returns,
            (np_mean returns / np_std returns)%F)
      ∧ length returns = 3.
Proof.
  assert (Hwf : df_wf Sample.returns_AB64) by (repeat constructor).
  split; [done|]. split.
  - exact (portfolio_performance_outcome Sample.returns_AB64 [Binary64.of_Z 1] Hwf).
  - destruct (portfolio_performance_outcome Sample.returns_AB64
                [Binary64.of_Z 1; Binary64.of_Z 1] Hwf) as (returns & Hok & Hlen & _).
    exists returns. by split.
Defined.

(** The covariance that [np.cov] returns for fewer than two observations is
    not-a-number: the normaliser [N - 1] is replaced by zero. *)
Lemma np_cov_short (xs ys : list Qc) :
  length xs = length ys → length xs ≤ 1 →
  np_cov (Exact.Fin <$> xs) (Exact.Fin <$> ys) = Ok Exact.NaN.
Proof.
  intros Hlen HN.
  destruct xs as [|x [|? ?]], ys as [|y [|? ?]]; simplify_eq/=; try lia.
  - done.
  - unfold np_cov. cbn [length fmap list_fmap].
    destruct (decide (1 = 1)); [|done]. f_equal.
    unfold np_mean, inner, np_sum. cbn [length fmap list_fmap zip_with fold_left].
    change (of_Z (Z.of_nat 1)) with (Exact.Fin 1%Qc).
    change (of_Z (Z.max (Z.of_nat 1 - 1) 0)) with (Exact.Fin 0%Qc).
    change (of_Z 1) with (Exact.Fin 1%Qc).
    rewrite !exact_div_Fin by done.
    change (Exact.Fin 1 / Exact.Fin 0)%F with (Exact.Inf false).
    cbn [nsub nmul exact_num Exact.sub Exact.mul].
    rewrite bool_decide_eq_true_2; [done|].
    change (Q2Qc 0) with 0%Qc. field. done.
Qed.

(** X13. With fewer than two dates shared by the instrument returns and
    the benchmark, the beta block raises nothing and returns not-a-number,
    in exact arithmetic. *)
Theorem portfolio_beta_few_dates (daily_returns : DataFrame Exact.t)
    (p : list Qc) (market : Series date Qc) :
  let dates := filter (λ d, d ∈ index market) (df_index daily_returns) in
  NoDup (df_index daily_returns) → NoDup (index market) →
  length p = length (df_index daily_returns) →
  length dates ≤ 1 →
  portfolio_beta daily_returns (Exact.Fin <$> p) (exact_series market)
  = Ok Exact.NaN.
Proof.
  intros dates Hidx Hm Hlen HN. unfold portfolio_beta.
  destruct (reindex_dropna (exact_series market) (df_index daily_returns))
    as (conformed & -> & Hdrop).
  { by rewrite index_exact_series. }
  { apply exact_series_no_nan. }
  cbn [mbind result_bind]. rewrite Hdrop. clear Hdrop conformed.
  rewrite entries_at_exact_series, entries_at_filter. fold dates.
  unfold pd_Series. rewrite length_fmap.
  destruct (decide (length p = length (df_index daily_returns))); [|done].
  cbn [mbind result_bind]. rewrite exact_series_zip, index_exact_series.
  assert (Hdates : index (entries_at market dates) = dates).
  { rewrite index_entries_at. apply filter_Forall_id, Forall_forall.
    by intros d [? _]%list_elem_of_filter. }
  rewrite Hdates, series_loc_NoDup.
  - cbn [mbind result_bind].
    rewrite entries_at_exact_series, !values_exact_series.
    rewrite !values_entries_at.
    + rewrite np_cov_short.
      * done.
      * unfold series_on. by rewrite !length_fmap.
      * unfold series_on. by rewrite length_fmap.
    + rewrite ?index_zip_same by done. apply Forall_forall.
      by intros d [? ?]%list_elem_of_filter.
    + rewrite ?index_zip_same by done. apply Forall_forall.
      by intros d [? ?]%list_elem_of_filter.
  - by rewrite index_exact_series, index_zip_same.
  - rewrite index_exact_series, index_zip_same by done. apply Forall_forall.
    by intros d [_ ?]%list_elem_of_filter.
Qed.

Lemma portfolio_beta_few_dates_example :
  let daily_returns : DataFrame Exact.t :=
    mkDataFrame [1; 2; 3]%Z [("A"%string, [Exact.frac 1 64; Exact.frac 1 32; Exact.frac 3 64])] in
  let p := [qc 1 64; qc 1 32; qc 3 64] in
  let market : Series date Qc := [(3, qc 1 16); (4, qc 1 8)]%Z in
  (NoDup (df_index daily_returns) ∧ NoDup (index market)
   ∧ length p = length (df_index daily_returns)
   ∧ length (filter (λ d, d ∈ index market) (df_index daily_returns)) ≤ 1)
  ∧ portfolio_beta daily_returns (Exact.Fin <$> p) (exact_series market)
    = Ok Exact.NaN.
Proof.
  intros daily_returns p market.
  assert (H1 : NoDup (df_index daily_returns)) by compute_done.
  assert (H2 : NoDup (index market)) by compute_done.
  assert (H3 : length p = length (df_index daily_returns)) by done.
  assert (H4 : length (filter (λ d, d ∈ index market) (df_index daily_returns)) ≤ 1)
    by (vm_compute; lia).
  split; [done|].
  exact (portfolio_beta_few_dates daily_returns p market H1 H2 H3 H4).
Defined.

(** ** The latest prices *)

(** X14. [get_current_prices] raises [IndexError] when the download has no
    row; on a download with a row, whose columns are as long as its index,
    it returns the last entry of each column under the column's label. *)
Theorem get_current_prices_outcome {F} `{Num F} (stock_data : DataFrame F) :
  df_wf stock_data →
  if decide (df_index stock_data = [])
  then get_current_prices stock_data = Raise IndexError
  else
    ∃ prices,
      get_current_prices stock_data = Ok prices
      ∧ index prices = columns stock_data
      ∧ ∀ i c xs, df_data stock_data !! i = Some (c, xs) →
          ∃ v, last xs = Some v ∧ prices !! i = Some (c, v).
Proof.
  intros Hwf. unfold get_current_prices, df_iloc_last.
  destruct (decide _) as [Hnil|Hne]; [by rewrite Hnil|].
  destruct (length (df_index stock_data)) as [|t] eqn:Hlen.
  { by destruct (df_index stock_data). }
  unfold df_wf in Hwf. rewrite Hlen in Hwf. unfold columns.
  clear Hne Hlen. eexists. split; [done|].
  induction (df_data stock_data) as [|[c xs] data IH].
  - split; [done|]. by intros i c xs ?.
  - apply Forall_cons in Hwf as [Hxs Hwf]. destruct (IH Hwf) as [IH1 IH2].
    cbn [snd] in Hxs. cbn [omap list_omap fst snd].
    assert (Hlast : xs !! t = last xs) by (rewrite last_lookup, Hxs; done).
    destruct (xs !! t) as [v|] eqn:Hv.
    + cbn [fmap option_fmap option_map]. split.
      * unfold index in *. rewrite !fmap_cons. cbn [fst]. by rewrite IH1.
      * intros [|i] c' xs' Hi.
        -- injection Hi as <- <-. by exists v.
        -- by apply IH2.
    + apply lookup_ge_None in Hv. lia.
Qed.

Lemma get_current_prices_outcome_example :
  df_wf Sample.latest_AB64
  ∧ ∃ prices,
      get_current_prices Sample.latest_AB64 = Ok prices
      ∧ index prices = ["A"; "B"]%string.
Proof.
  assert (Hwf : df_wf Sample.latest_AB64) by (repeat constructor).
  split; [done|].
  destruct (get_current_prices_outcome Sample.latest_AB64 Hwf)
    as (prices & Hok & Hidx & _).
  exists prices. by split.
Defined.
